(** * Multi_Agent_Ver: safety gating, action arbitration and bounded history

    A shallow embedding of the decision logic of the repository
    (agents/guardrail_agent.py, agents/action_agent.py,
    core/context_manager.py, core/api_handler.py and the [chat] route of
    main.py), followed by the properties established about it.

    Modelling conventions
    - A Python [str] is a [string]; the model covers ASCII text: [lower]
      maps A-Z to a-z and [strip] removes the ASCII characters for which
      [str.isspace] holds.  Other bytes are left alone.
    - A Python [dict] with string keys is a [gmap string _].
    - Python [int] is [Z]; list slicing is written out with its clamping.
    - Exceptions are values of [exn]; code that can raise returns a
      [result].  Stateful code runs in the monad [M], which threads the
      history store and the index of the next completion-service attempt
      and collects the observable events of a turn.
    - [logging] calls and [time.sleep] are not modelled. *)

From Stdlib Require Import ZArith Ascii String Lia Bool.
From stdpp Require Import base option list strings gmap.

Local Open Scope Z_scope.

(* ===================================================================== *)
(** ** Python string primitives                                           *)
(* ===================================================================== *)

Module PyStr.

Definition is_upper (c : ascii) : bool :=
  let n := nat_of_ascii c in (65 <=? n)%nat && (n <=? 90)%nat.

Definition lower_char (c : ascii) : ascii :=
  if is_upper c then ascii_of_nat (nat_of_ascii c + 32) else c.

(** [s.lower()] *)
Fixpoint lower (s : string) : string :=
  match s with
  | EmptyString => EmptyString
  | String c t => String (lower_char c) (lower t)
  end.

(** [c.isspace()] on the ASCII range: TAB LF VT FF CR, FS GS RS US, SPACE. *)
Definition isspace (c : ascii) : bool :=
  let n := nat_of_ascii c in
  ((9 <=? n)%nat && (n <=? 13)%nat) || ((28 <=? n)%nat && (n <=? 32)%nat).

(** [s.lstrip()] *)
Fixpoint lstrip (s : string) : string :=
  match s with
  | EmptyString => EmptyString
  | String c t => if isspace c then lstrip t else s
  end.

(** [s.rstrip()] *)
Fixpoint rstrip (s : string) : string :=
  match s with
  | EmptyString => EmptyString
  | String c t =>
      match rstrip t with
      | EmptyString => if isspace c then EmptyString else String c EmptyString
      | t' => String c t'
      end
  end.

(** [s.strip()] *)
Definition strip (s : string) : string := rstrip (lstrip s).

(** [s.startswith(p)] *)
Fixpoint startswith (p s : string) : bool :=
  match p, s with
  | EmptyString, _ => true
  | String a p', String b s' => if Ascii.eqb a b then startswith p' s' else false
  | String _ _, EmptyString => false
  end.

(** [needle in hay] *)
Fixpoint contains (needle hay : string) : bool :=
  startswith needle hay ||
  match hay with
  | EmptyString => false
  | String _ t => contains needle t
  end.

(** [s[n:]] for [0 <= n] *)
Fixpoint drop (n : nat) (s : string) : string :=
  match n, s with
  | O, _ => s
  | S _, EmptyString => EmptyString
  | S n', String _ t => drop n' t
  end.

(** [s[:n]] for [0 <= n] *)
Fixpoint take (n : nat) (s : string) : string :=
  match n, s with
  | O, _ => EmptyString
  | S _, EmptyString => EmptyString
  | S n', String c t => String c (take n' t)
  end.

(** [s.split(sep, 1)] when [sep] occurs in [s]: the text before and the
    text after the leftmost occurrence; [None] stands for the
    one-element list [[s]] that Python returns otherwise. *)
Fixpoint split1 (sep s : string) : option (string * string) :=
  if startswith sep s then Some (EmptyString, drop (String.length sep) s)
  else
    match s with
    | EmptyString => None
    | String c t =>
        match split1 sep t with
        | Some (a, b) => Some (String c a, b)
        | None => None
        end
    end.

(** [s.rsplit(sep, 1)] for a one-character [sep] that occurs in [s]: the
    text after the rightmost occurrence. *)
Fixpoint rsplit1_last (sep : ascii) (s : string) : option string :=
  match s with
  | EmptyString => None
  | String c t =>
      match rsplit1_last sep t with
      | Some r => Some r
      | None => if Ascii.eqb c sep then Some t else None
      end
  end.

(** [any(k in s for k in keywords)] *)
Definition any_in (keywords : list string) (s : string) : bool :=
  existsb (fun k => contains k s) keywords.

(** Python truthiness of a [str] *)
Definition truthy (s : string) : bool :=
  match s with EmptyString => false | _ => true end.

Definition nl : string := String (ascii_of_nat 10) EmptyString.

End PyStr.

(* ===================================================================== *)
(** ** Exceptions and results                                             *)
(* ===================================================================== *)

(** The exceptions the modelled code can meet; each carries [str(e)].
    All of them are subclasses of Python's [Exception]. *)
Inductive exn :=
| BlockedPromptException (msg : string)  (* genai.types.BlockedPromptException *)
| AttributeError (msg : string)
| IndexError (msg : string)
| TypeError (msg : string)
| ValueError (msg : string)
| KeyError (msg : string)
| Exception (msg : string).

Definition exn_str (e : exn) : string :=
  match e with
  | BlockedPromptException m | AttributeError m | IndexError m
  | TypeError m | ValueError m | KeyError m | Exception m => m
  end.

Inductive result (A : Type) :=
| Ret (a : A)
| Raise (e : exn).
Arguments Ret {A} a.
Arguments Raise {A} e.

Definition returns {A} (r : result A) : bool :=
  match r with Ret _ => true | Raise _ => false end.

(** A Python value that is a [str] or [None], as [dict.get] returns it. *)
Abbreviation pystr := (option string).

(** [a or b] on values that are [str] or [None] *)
Definition py_or (a b : pystr) : pystr :=
  match a with
  | Some s => if PyStr.truthy s then a else b
  | None => b
  end.

(** [a == s] for a string literal [s] *)
Definition py_eq (a : pystr) (s : string) : bool :=
  match a with Some t => String.eqb t s | None => false end.

(** how an f-string renders the value *)
Definition py_fmt (a : pystr) : string :=
  match a with Some s => s | None => "None" end.

(* ===================================================================== *)
(** ** agents/action_agent.py                                             *)
(* ===================================================================== *)

(** [action_data]: the dictionary passed between [determine_action],
    [validate_action] and [execute_action]. *)
Abbreviation action_data := (gmap string string).

Module ActionAgent.
Import PyStr.

Definition illegal_search : list string :=
  ["illegal drugs"; "violent acts"; "child exploitation"; "harmful chemicals"].
Definition sensitive_data : list string :=
  ["credit card numbers"; "ssn"; "passwords of others"].
Definition illegal_meeting : list string :=
  ["bomb threat"; "illegal gathering"].
Definition known_actions : list string :=
  ["none"; "web_search"; "save_data"; "schedule_meeting"].

(** [details and any(keyword in details.lower() for keyword in kws)] *)
Definition details_any (details : pystr) (kws : list string) : bool :=
  match details with
  | Some d => truthy d && any_in kws (lower d)
  | None => false
  end.

(** [action_type not in ["none", "web_search", "save_data", "schedule_meeting"]] *)
Definition unknown_type (action_type : pystr) : bool :=
  negb (existsb (py_eq action_type) known_actions).

(** The tail of [validate_action], reached when no content rule fired. *)
Definition closed_world (action_type : pystr) : result (bool * string) :=
  if unknown_type action_type then
    Ret (false, "Unsupported or unauthorized action: '" +:+ py_fmt action_type +:+ "'.")
  else Ret (true, "Action is valid.").

Definition validate_action (ad : action_data) : result (bool * string) :=
  let action_type := ad !! "action" in
  let details := py_or (py_or (ad !! "query") (ad !! "data")) (ad !! "details") in
  if py_eq action_type "web_search" then
    if details_any details illegal_search then
      Ret (false, "Cannot perform web search for harmful or illegal content.")
    else
      match details with
      | None => Raise (AttributeError "'NoneType' object has no attribute 'lower'")
      | Some d =>
          if contains "delete" (lower d) || contains "format" (lower d) then
            Ret (false, "Cannot perform web search for potentially destructive actions.")
          else closed_world action_type
      end
  else if py_eq action_type "save_data" then
    if details_any details sensitive_data then
      Ret (false, "Cannot save highly sensitive personal information.")
    else closed_world action_type
  else if py_eq action_type "schedule_meeting" then
    if details_any details illegal_meeting then
      Ret (false, "Cannot schedule meetings related to illegal activities.")
    else closed_world action_type
  else closed_world action_type.

Definition marker : string := "search the web for".

Definition determine_action (context_summary : string) : result action_data :=
  if contains marker (lower context_summary) then
    match split1 marker (lower context_summary) with
    | Some (_, after) =>
        Ret {[ "action" := "web_search"; "query" := strip after ]}
    | None => Raise (IndexError "list index out of range")
    end
  else if contains "save this information" (lower context_summary) then
    Ret {[ "action" := "save_data"; "data" := context_summary ]}
  else if contains "schedule" (lower context_summary)
          && contains "meeting" (lower context_summary) then
    Ret {[ "action" := "schedule_meeting"; "details" := context_summary ]}
  else Ret {[ "action" := "none" ]}.

End ActionAgent.

(* ===================================================================== *)
(** ** core/context_manager.py                                            *)
(* ===================================================================== *)

(** JSON values as [json.load] produces them; a history entry is a JSON
    object.  Numbers are kept as integers: no modelled code inspects them. *)
#[warning="-register-all"] Inductive json :=
| JNull
| JBool (b : bool)
| JNum (z : Z)
| JStr (s : string)
| JArr (items : list json)
| JObj (fields : gmap string json).

(** What [_load_history] finds at [history_file]. *)
Inductive file_state :=
| FileAbsent                 (* os.path.exists(...) is False *)
| FileUnreadable             (* open/read raises *)
| FileNotJSON                (* json.load raises JSONDecodeError *)
| FileJSON (v : json).

(** [lst[start:]] on a Python list, for any integer [start]. *)
Definition slice_from {A} (start : Z) (l : list A) : list A :=
  if start <? 0 then drop (Z.to_nat (Z.max 0 (Z.of_nat (length l) + start))) l
  else drop (Z.to_nat start) l.

Module ContextManager.

Record t := mk {
  max_history_turns : Z;
  conversation_history : list json
}.

(** [isinstance(item, dict) and 'role' in item and 'content' in item] *)
Definition well_formed_item (item : json) : bool :=
  match item with
  | JObj o => bool_decide (is_Some (o !! "role")) && bool_decide (is_Some (o !! "content"))
  | _ => false
  end.

Definition _load_history (file : file_state) : list json :=
  match file with
  | FileJSON (JArr history) =>
      if forallb well_formed_item history then history else []
  | FileJSON _ => []
  | FileNotJSON => []
  | FileUnreadable => []
  | FileAbsent => []
  end.

(** [ContextManager(history_file, max_history_turns)] *)
Definition init (file : file_state) (max_history_turns : Z) : t :=
  mk max_history_turns (_load_history file).

(** [_save_history]: the file then holds the dumped list (a failing
    write is logged and swallowed by the source and leaves the store
    as it is; the model takes the write to succeed). *)
Definition _save_history (self : t) : file_state :=
  FileJSON (JArr (conversation_history self)).

Definition entry (role : string) (content : json) : json :=
  JObj {[ "role" := JStr role; "content" := content ]}.

(** [add_message]: the updated store and the file as saved. *)
Definition add_message (self : t) (role : string) (content : json) : t * file_state :=
  let h := conversation_history self ++ [entry role content] in
  let h' :=
    if max_history_turns self <? Z.of_nat (length h)
    then slice_from (- max_history_turns self) h
    else h in
  let self' := mk (max_history_turns self) h' in
  (self', _save_history self').

Definition get_full_history (self : t) : list json := conversation_history self.

Definition clear_history (self : t) : t * file_state :=
  let self' := mk (max_history_turns self) [] in
  (self', _save_history self').

(** [get_context_for_llm]: the entries whose content is a [str], as
    role/content pairs.  [turn['content']] and [turn['role']] raise
    [KeyError] on an entry without the key; no entry of a store built by
    [init] and [add_message] lacks one, and the model skips such entries. *)
Definition get_context_for_llm (self : t) : list (json * string) :=
  omap (fun turn =>
          match turn with
          | JObj o =>
              match o !! "content", o !! "role" with
              | Some (JStr c), Some r => Some (r, c)
              | _, _ => None
              end
          | _ => None
          end) (conversation_history self).

End ContextManager.

(* ===================================================================== *)
(** ** The turn monad: store, completion service, observable events       *)
(* ===================================================================== *)

(** Why a completion-service request is made (a label on the event; the
    source makes the three kinds of request from three agents). *)
Inductive purpose := SafetyScan | ContentAnalysis | ResponseGeneration.

(** One attempt of [model.generate_content]: it returns a response, whose
    [.text] property yields the text or raises, or it throws. *)
Inductive attempt :=
| Responded (text : result string)
| Threw (e : exn).

(** The collaborators of a turn: the completion service, answering the
    n-th attempt made on it, and werkzeug's [secure_filename]. *)
Record Env := {
  generate_content : nat -> attempt;
  secure_filename : string -> string
}.

Inductive event :=
| EvCompletion (why : purpose) (prompt : string)        (* one generate_content attempt *)
| EvAppend (role : string) (content : json)             (* ContextManager.add_message *)
| EvValidate (ad : action_data) (verdict : result (bool * string))  (* validate_action *)
| EvExecute (ad : action_data)                          (* execute_action entered *)
| EvPrint (line : string).                              (* print(...) *)

Record world := {
  store : ContextManager.t;      (* the global context_manager *)
  disk : file_state;             (* the history file *)
  attempts : nat                 (* attempts made on the completion service *)
}.

Definition M (A : Type) : Type := world -> result A * world * list event.

Definition ret {A} (a : A) : M A := fun w => (Ret a, w, []).
Definition raise {A} (e : exn) : M A := fun w => (Raise e, w, []).
Definition bind {A B} (m : M A) (k : A -> M B) : M B :=
  fun w =>
    match m w with
    | (Ret a, w1, t1) => let '(r, w2, t2) := k a w1 in (r, w2, t1 ++ t2)
    | (Raise e, w1, t1) => (Raise e, w1, t1)
    end.
(** [try: m except Exception as e: handler e] *)
Definition try_except {A} (m : M A) (handler : exn -> M A) : M A :=
  fun w =>
    match m w with
    | (Ret a, w1, t1) => (Ret a, w1, t1)
    | (Raise e, w1, t1) => let '(r, w2, t2) := handler e w1 in (r, w2, t1 ++ t2)
    end.
Definition emit (e : event) : M unit := fun w => (Ret tt, w, [e]).
Definition lift {A} (r : result A) : M A := fun w => (r, w, []).

Notation "x <- m ;; k" := (bind m (fun x => k))
  (at level 100, m at next level, right associativity).
Notation "m ;;; k" := (bind m (fun _ => k))
  (at level 100, right associativity).

Definition outcome {A} (x : result A * world * list event) : result A := x.1.1.
Definition final {A} (x : result A * world * list event) : world := x.1.2.
Definition events {A} (x : result A * world * list event) : list event := x.2.

(** The store operations in the monad. *)
Definition add_message (role : string) (content : string) : M unit :=
  fun w =>
    let '(s, f) := ContextManager.add_message (store w) role (JStr content) in
    (Ret tt, {| store := s; disk := f; attempts := attempts w |},
     [EvAppend role (JStr content)]).

Definition get_full_history : M (list json) :=
  fun w => (Ret (ContextManager.get_full_history (store w)), w, []).

Definition get_context_for_llm : M (list (json * string)) :=
  fun w => (Ret (ContextManager.get_context_for_llm (store w)), w, []).

(* ===================================================================== *)
(** ** core/api_handler.py                                                *)
(* ===================================================================== *)

Section Handler.
Variable env : Env.

(** [model.generate_content(...)]: one attempt on the service. *)
Definition model_generate_content (why : purpose) (prompt : string)
  : M (result string) :=
  fun w =>
    let w' := {| store := store w; disk := disk w; attempts := S (attempts w) |} in
    match generate_content env (attempts w) with
    | Responded text => (Ret text, w', [EvCompletion why prompt])
    | Threw e => (Raise e, w', [EvCompletion why prompt])
    end.

(** The [for i in range(retries)] loop of [_call_gemini_model], with
    [left] iterations to go. *)
Fixpoint retry_loop (why : purpose) (prompt : string) (left : nat)
  : M (result string) :=
  match left with
  | O => raise (Exception "Failed to call Gemini API after 3 attempts.")
  | S left' =>
      try_except (model_generate_content why prompt)
        (fun e =>
           match e with
           | BlockedPromptException _ => raise e
           | _ => retry_loop why prompt left'
           end)
  end.

Definition _call_gemini_model (why : purpose) (prompt : string)
  : M (result string) :=
  retry_loop why prompt 3.

(** [generate_text]: [response.text] of the response obtained. *)
Definition generate_text (why : purpose) (prompt : string) : M string :=
  response <- _call_gemini_model why prompt ;;
  lift response.

(** [generate_vision_response]: the same call with the image part. *)
Definition generate_vision_response (why : purpose)
    (image_data : list Byte.byte) (prompt : string) : M string :=
  response <- _call_gemini_model why prompt ;;
  lift response.

End Handler.

(* ===================================================================== *)
(** ** agents/guardrail_agent.py                                          *)
(* ===================================================================== *)

Module GuardrailAgent.
Import PyStr.

Definition malicious_keywords : list string :=
  ["delete all files"; "Hacking"; "format hard drive"; "steal credit card";
   "harm yourself"; "do something illegal"].

(** Stage 1, the [for keyword in malicious_keywords] loop: the first
    keyword found in [text_input.lower()], if any. *)
Definition rule_based (text_input : string) : option string :=
  List.find (fun keyword => contains keyword (lower text_input)) malicious_keywords.

Definition stage2_handler (blocked internal : string) (e : exn) : M (bool * string) :=
  match e with
  | BlockedPromptException _ => ret (false, blocked)
  | _ => ret (false, internal)
  end.

Section WithEnv.
Variable env : Env.

Definition scan_text_input (text_input : string) : M (bool * string) :=
  match rule_based text_input with
  | Some _ =>
      ret (false, "Your request contains content that violates our safety guidelines. Please rephrase your query.")
  | None =>
      try_except
        (generate_text env SafetyScan text_input ;;;
         ret (true, "Text input is safe."))
        (stage2_handler
           "Your request was blocked by safety filters. Please try a different query."
           "An internal error occurred during safety check. Please try again.")
  end.

Definition scan_image_input (image_data : list Byte.byte) (user_prompt : string)
  : M (bool * string) :=
  let vision_prompt := "Is this image safe? Describe any unsafe content if present." in
  let vision_prompt :=
    if truthy user_prompt
    then vision_prompt +:+ " Also consider: " +:+ user_prompt
    else vision_prompt in
  try_except
    (generate_vision_response env SafetyScan image_data vision_prompt ;;;
     ret (true, "Image input is safe."))
    (stage2_handler
       "The image you provided was blocked by safety filters. Please try a different image."
       "An internal error occurred during image safety check. Please try again.").
End WithEnv.

End GuardrailAgent.

(* ===================================================================== *)
(** ** The analysing and responding agents, and [execute_action]          *)
(* ===================================================================== *)

Module Agents.
Import PyStr.

Section WithEnv.
Variable env : Env.

(** agents/text_agent.py *)
Definition analyze_text (text_input : string) : M string :=
  let prompt :=
    "The user said: '" +:+ text_input +:+
    "'. Based on the conversation history, what is the main intent or key information in this statement? Keep it concise for internal processing." in
  generate_text env ContentAnalysis prompt.

(** agents/image_agent.py; its [except: raise] re-raises unchanged. *)
Definition analyze_image_from_bytes (image_data : list Byte.byte)
    (user_prompt : string) : M string :=
  let vision_prompt := "Analyze this image." in
  let vision_prompt :=
    if truthy user_prompt
    then vision_prompt +:+ " Specifically, " +:+ user_prompt
    else vision_prompt in
  generate_vision_response env ContentAnalysis image_data vision_prompt.

(** agents/response_agent.py *)
Definition generate_response (context_summary : string) : M string :=
  let prompt :=
    "Based on the following context and conversation history, generate a helpful and concise response to the user. "
    +:+ nl +:+ nl +:+ "Context/Analysis: " +:+ context_summary +:+ nl +:+ nl in
  generate_text env ResponseGeneration prompt.
End WithEnv.

(** [value[:50]] on a value that is a [str] or [None] *)
Definition first50 (v : pystr) : M string :=
  match v with
  | Some s => ret (take 50 s)
  | None => raise (TypeError "'NoneType' object is not subscriptable")
  end.

(** [ActionAgent.validate_action], recorded as an event of the turn. *)
Definition validate_action (ad : action_data) : M (bool * string) :=
  emit (EvValidate ad (ActionAgent.validate_action ad)) ;;;
  lift (ActionAgent.validate_action ad).

(** [ActionAgent.execute_action] *)
Definition execute_action (ad : action_data) : M unit :=
  emit (EvExecute ad) ;;;
  let action_type := ad !! "action" in
  if py_eq action_type "web_search" then
    emit (EvPrint (nl +:+ "[ACTION]: Performing web search for: '" +:+ py_fmt (ad !! "query")
                   +:+ "' (Placeholder: In a real app, this would use a search API like Google Search)."))
  else if py_eq action_type "save_data" then
    data <- first50 (ad !! "data") ;;
    emit (EvPrint (nl +:+ "[ACTION]: Saving data: '" +:+ data
                   +:+ "...' (Placeholder: In a real app, this would save to a database or file)."))
  else if py_eq action_type "schedule_meeting" then
    details <- first50 (ad !! "details") ;;
    emit (EvPrint (nl +:+ "[ACTION]: Scheduling meeting with details: '" +:+ details
                   +:+ "...' (Placeholder: In a real app, this would integrate with a calendar API)."))
  else if py_eq action_type "none" then ret tt   (* pass *)
  else ret tt.                                   (* a warning is logged *)

End Agents.

(* ===================================================================== *)
(** ** main.py: the [/chat] route                                         *)
(* ===================================================================== *)

Module Main.
Import PyStr.

Definition ALLOWED_EXTENSIONS : list string := ["png"; "jpg"; "jpeg"; "gif"; "webp"].

(** ['.' in filename and filename.rsplit('.', 1)[1].lower() in ALLOWED_EXTENSIONS] *)
Definition allowed_file (filename : string) : bool :=
  match rsplit1_last "." filename with
  | Some ext => existsb (String.eqb (lower ext)) ALLOWED_EXTENSIONS
  | None => false
  end.

(** The form of a POST to [/chat]: [text_input] (absent reads as the
    empty string) and [image_file] with its filename and bytes. *)
Record Request := {
  text_input : string;
  image_file : option (string * list Byte.byte)
}.

Inductive http_response :=
| ChatReply (response : string) (history : list json)    (* 200 *)
| ErrorReply (status : Z) (error : string).

(** [uploaded_file and allowed_file(uploaded_file.filename)]: a
    [FileStorage] is truthy when its filename is. *)
Definition accepted_upload (uploaded_file : option (string * list Byte.byte))
  : option (string * list Byte.byte) :=
  match uploaded_file with
  | Some (filename, data) =>
      if truthy filename && allowed_file filename then Some (filename, data) else None
  | None => None
  end.

Section WithEnv.
Variable env : Env.

(** Lines 61-74: the input guardrail; [None] is the 400 branch. *)
Definition guardrail_check (user_input_text : string)
    (uploaded_file : option (string * list Byte.byte)) : M (option (bool * string)) :=
  match accepted_upload uploaded_file with
  | Some (_, image_data) =>
      v <- GuardrailAgent.scan_image_input env image_data user_input_text ;;
      ret (Some v)
  | None =>
      if truthy user_input_text then
        v <- GuardrailAgent.scan_text_input env user_input_text ;;
        ret (Some v)
      else ret None
  end.

(** Lines 76-81: the blocked turn. *)
Definition blocked_turn (user_input_text : string)
    (uploaded_file : option (string * list Byte.byte))
    (guardrail_message : string) : M http_response :=
  label <- (if truthy user_input_text then ret user_input_text
            else match uploaded_file with
                 | Some (filename, _) => ret ("[Image: " +:+ filename +:+ "]")
                 | None => raise (AttributeError "'NoneType' object has no attribute 'filename'")
                 end) ;;
  add_message "user" label ;;;
  add_message "model" ("[Guardrail]: " +:+ guardrail_message) ;;;
  history <- get_full_history ;;
  ret (ChatReply ("System: " +:+ guardrail_message) history).

(** Lines 85-108: content analysis; yields [context_summary] and
    [gemini_response]. *)
Definition analysing (user_input_text : string)
    (uploaded_file : option (string * list Byte.byte)) : M (string * string) :=
  match accepted_upload uploaded_file with
  | Some (filename, image_data) =>
      image_analysis <- Agents.analyze_image_from_bytes env image_data user_input_text ;;
      add_message "user"
        ("[Image: " +:+ secure_filename env filename +:+ "] " +:+
         (if truthy user_input_text then user_input_text else "Image provided.")) ;;;
      add_message "model" ("[Image Analysis]: " +:+ image_analysis) ;;;
      ret ("Image analysis: " +:+ image_analysis, "[Image Analysis]: " +:+ image_analysis)
  | None =>
      if truthy user_input_text then
        text_analysis <- Agents.analyze_text env user_input_text ;;
        add_message "user" user_input_text ;;;
        add_message "model" ("[Text Analysis]: " +:+ text_analysis) ;;;
        ret ("Text analysis: " +:+ text_analysis, "[Text Analysis]: " +:+ text_analysis)
      else ret ("", "")
  end.

(** Lines 121-127: execute the validated request [ad] of type [action]
    and compose the notice. *)
Definition executing (ad : action_data) (action : string) : M string :=
  Agents.execute_action ad ;;;
  let action_message := "[ACTION]: " +:+ action +:+ " performed." in
  match ad !! "query", ad !! "details" with
  | Some query, _ => ret (action_message +:+ " (Query: '" +:+ query +:+ "')")
  | None, Some details =>
      ret (action_message +:+ " (Details: '" +:+ take 50 details +:+ "...')")
  | None, None => ret action_message
  end.

(** Lines 110-131: derive, validate and, when valid and not ['none'],
    execute the action; yields [action_message]. *)
Definition action_step (context_summary : string) : M string :=
  ad <- lift (ActionAgent.determine_action context_summary) ;;
  v <- Agents.validate_action ad ;;
  let '(is_action_valid, action_validation_message) := v in
  if negb is_action_valid then
    ret ("[ACTION BLOCKED]: " +:+ action_validation_message)
  else
    match ad !! "action" with
    | None => raise (KeyError "'action'")
    | Some action =>
        if negb (String.eqb action "none") then executing ad action
        else ret "[ACTION]: No specific action determined."
    end.

(** Lines 84-144: the [try] block and its handler. *)
Definition safe_turn (user_input_text : string)
    (uploaded_file : option (string * list Byte.byte)) : M http_response :=
  try_except
    (a <- analysing user_input_text uploaded_file ;;
     let '(context_summary, gemini_response) := a in
     action_message <- action_step context_summary ;;
     final_response_text <- Agents.generate_response env context_summary ;;
     add_message "model" final_response_text ;;;
     history <- get_full_history ;;
     ret (ChatReply (gemini_response +:+ nl +:+ nl +:+ action_message +:+ nl +:+ nl
                     +:+ "Gemini: " +:+ final_response_text) history))
    (fun e => ret (ErrorReply 500 (exn_str e))).

Definition chat (req : Request) : M http_response :=
  let user_input_text := strip (text_input req) in
  let uploaded_file := image_file req in
  llm_history <- get_context_for_llm ;;
  verdict <- guardrail_check user_input_text uploaded_file ;;
  match verdict with
  | None => ret (ErrorReply 400 "No text or image input provided.")
  | Some (is_input_safe, guardrail_message) =>
      if negb is_input_safe
      then blocked_turn user_input_text uploaded_file guardrail_message
      else safe_turn user_input_text uploaded_file
  end.
End WithEnv.

End Main.

(* ===================================================================== *)
(** ** Vocabulary of the statements                                       *)
(* ===================================================================== *)

(** An attempt on the completion service made for [why]. *)
Definition is_completion_for (why : purpose) (e : event) : Prop :=
  match e with EvCompletion why' _ => why' = why | _ => False end.

(** Completion-service attempts and history appends: the events of every
    part of a turn except the action step. *)
Definition is_io (e : event) : Prop :=
  match e with EvCompletion _ _ | EvAppend _ _ => True | _ => False end.

Definition is_print (e : event) : Prop :=
  match e with EvPrint _ => True | _ => False end.

(** Every event of [m], from every world, satisfies [Q]. *)
Definition only {A} (Q : event → Prop) (m : M A) : Prop :=
  ∀ w, Forall Q (events (m w)).

(** Every execution in the trace comes right after a validation of the
    same [action_data] that returned the valid verdict, and is of a
    request whose type is not ['none']. *)
Definition gated (tr : list event) : Prop :=
  ∀ before ad after,
    tr = before ++ EvExecute ad :: after →
    ad !! "action" ≠ Some "none"
    ∧ ∃ msg earlier,
        ActionAgent.validate_action ad = Ret (true, msg)
        ∧ before = earlier ++ [EvValidate ad (Ret (true, msg))].

Definition gated_only {A} (m : M A) : Prop := ∀ w, gated (events (m w)).

(** Appending a sequence of messages, the entries they make, and the
    last [n] elements of a list in their order. *)
Definition append_all (self : ContextManager.t) (msgs : list (string * json))
  : ContextManager.t :=
  foldl (λ s m, (ContextManager.add_message s m.1 m.2).1) self msgs.

Definition entries (msgs : list (string * json)) : list json :=
  map (λ m, ContextManager.entry m.1 m.2) msgs.

Definition last_n {A} (n : nat) (l : list A) : list A := drop (length l - n) l.

(** A service on which every attempt times out, one that answers every
    attempt with the same text, and a fresh world around an empty store. *)
Definition env_timeout : Env :=
  {| generate_content := λ _, Threw (Exception "Deadline exceeded");
     secure_filename := λ name, name |}.

Definition env_answer (text : string) : Env :=
  {| generate_content := λ _, Responded (Ret text);
     secure_filename := λ name, name |}.

Definition world0 : world :=
  {| store := ContextManager.init FileAbsent 10; disk := FileAbsent; attempts := 0 |}.

(** The requests and the derived action used in the examples. *)
Definition blocked_request : Main.Request :=
  {| Main.text_input := "format hard drive"; Main.image_file := None |}.

Definition search_request : Main.Request :=
  {| Main.text_input := "hello"; Main.image_file := None |}.

Definition cats_search : action_data :=
  {[ "action" := "web_search"; "query" := "cats" ]}.

(** A persisted history of three well-formed entries. *)
Definition persisted3 : list json :=
  [ContextManager.entry "user" (JStr "a");
   ContextManager.entry "model" (JStr "b");
   ContextManager.entry "user" (JStr "c")].

(** The world after [n] more attempts on the completion service. *)
Definition advance (n : nat) (w : world) : world :=
  {| store := store w; disk := disk w; attempts := n + attempts w |}.

(** [isinstance(e, genai.types.BlockedPromptException)] *)
Definition is_blocked (e : exn) : bool :=
  match e with BlockedPromptException _ => true | _ => false end.

(** The attempts [from], ..., [from + n - 1] on the service all throw an
    exception other than [BlockedPromptException]. *)
Definition failing (env : Env) (from n : nat) : Prop :=
  ∀ i, (i < n)%nat →
    ∃ e, generate_content env (from + i) = Threw e ∧ is_blocked e = false.

(** Two more requests used in the examples: the one derived from a
    meeting summary, and a [save_data] request without any payload. *)
Definition meeting_request : action_data :=
  {[ "action" := "schedule_meeting"; "details" := "Let's schedule a meeting for Tuesday" ]}.

Definition bare_save_request : action_data := {[ "action" := "save_data" ]}.

(** The messages a trace appended to the history, in order, and the
    number of attempts it made on the completion service. *)
Definition appended (tr : list event) : list (string * json) :=
  omap (λ e, match e with EvAppend role content => Some (role, content) | _ => None end) tr.

Definition completions (tr : list event) : nat :=
  length (omap (λ e, match e with EvCompletion _ _ => Some tt | _ => None end) tr).

(** The effect of one event, and of a trace, on the world: an append
    goes through [ContextManager.add_message], an attempt on the service
    advances its counter, the other events leave the world alone. *)
Definition replay_event (w : world) (e : event) : world :=
  match e with
  | EvAppend role content =>
      {| store := (ContextManager.add_message (store w) role content).1;
         disk := (ContextManager.add_message (store w) role content).2;
         attempts := attempts w |}
  | EvCompletion _ _ => advance 1 w
  | _ => w
  end.

Definition replay (tr : list event) (w : world) : world := foldl replay_event w tr.

(** The history file holds what [_save_history] writes for the store. *)
Definition synced (w : world) : Prop :=
  disk w = ContextManager._save_history (store w).

(** From every world, [m] ends in the world its events replay to. *)
Definition sound {A} (m : M A) : Prop :=
  ∀ w, final (m w) = replay (events (m w)) w.

(** From every world, [m] makes at most [n] attempts on the service. *)
Definition at_most {A} (n : nat) (m : M A) : Prop :=
  ∀ w, (completions (events (m w)) ≤ n)%nat.

(** An event other than an append to the history. *)
Definition no_append (e : event) : Prop :=
  match e with EvAppend _ _ => False | _ => True end.

(** An event other than an attempt on the completion service. *)
Definition no_completion (e : event) : Prop :=
  match e with EvCompletion _ _ => False | _ => True end.

(** A service whose first [n] attempts time out and which answers from
    then on. *)
Definition env_flaky (n : nat) (text : string) : Env :=
  {| generate_content := λ i, if (i <? n)%nat then Threw (Exception "Deadline exceeded")
                               else Responded (Ret text);
     secure_filename := λ name, name |}.

(** A request with text and an upload whose last extension is not allowed. *)
Definition exe_request : Main.Request :=
  {| Main.text_input := "hello"; Main.image_file := Some ("setup.png.exe", []) |}.

(** The verdict Stage 2 gives for the outcome of its call. *)
Definition stage2_verdict_of {A} (ok blocked internal : string) (r : result A)
  : bool * string :=
  match r with
  | Ret _ => (true, ok)
  | Raise e => (false, if is_blocked e then blocked else internal)
  end.

(** An empty payload as [determine_action] derives it, and three messages. *)
Definition empty_search : action_data := {[ "action" := "web_search"; "query" := "" ]}.

Definition three_messages : list (string * json) :=
  [("user", JStr "a"); ("model", JNum 7); ("user", JStr "c")].

(* ===================================================================== *)
(** * Properties                                                          *)
(* ===================================================================== *)

(** ** Sanity checks of the model on concrete inputs *)

Example lower_ex : PyStr.lower "Search The WEB for Cats!" = "search the web for cats!".
Proof. reflexivity. Qed.

Example strip_ex : PyStr.strip "  illegal drugs now  " = "illegal drugs now".
Proof. reflexivity. Qed.

Example split1_ex :
  PyStr.split1 "ab" "xxabyyabzz" = Some ("xx", "yyabzz").
Proof. reflexivity. Qed.

Example rsplit_ex : PyStr.rsplit1_last "." "a.tar.GZ" = Some "GZ".
Proof. reflexivity. Qed.

Example determine_ex :
  ActionAgent.determine_action "Please search the web for illegal drugs now"
  = Ret {[ "action" := "web_search"; "query" := "illegal drugs now" ]}.
Proof. reflexivity. Qed.

Example validate_ex :
  ActionAgent.validate_action {[ "action" := "web_search"; "query" := "illegal drugs now" ]}
  = Ret (false, "Cannot perform web search for harmful or illegal content.").
Proof. reflexivity. Qed.

Example validate_ex2 :
  ActionAgent.validate_action {[ "action" := "web_search"; "query" := "" ]}
  = Raise (AttributeError "'NoneType' object has no attribute 'lower'").
Proof. reflexivity. Qed.

Example slice_ex1 : slice_from (-2) [1;2;3;4;5] = [4;5]. Proof. reflexivity. Qed.

Example slice_ex2 : slice_from (-7) [1;2;3;4;5] = [1;2;3;4;5]. Proof. reflexivity. Qed.

Example slice_ex3 : slice_from (-0) [1;2;3;4;5] = [1;2;3;4;5]. Proof. reflexivity. Qed.

Example slice_ex4 : slice_from 2 [1;2;3;4;5] = [3;4;5]. Proof. reflexivity. Qed.

Example slice_ex5 : slice_from 9 [1;2;3;4;5] = []. Proof. reflexivity. Qed.

(** ** Facts about the string primitives *)

Module PyStrFacts.
Import PyStr.
Local Arguments String.append !_ _ / : simpl nomatch.

Lemma str_app_nil_r (s : string) : s +:+ "" = s.
Proof. induction s as [|c s IH]; simpl; [done | by rewrite IH]. Qed.

Lemma str_app_assoc (a b c : string) : (a +:+ b) +:+ c = a +:+ (b +:+ c).
Proof. induction a as [|x a IH]; simpl; [done | by rewrite IH]. Qed.

Lemma str_length_app (a b : string) :
  String.length (a +:+ b) = (String.length a + String.length b)%nat.
Proof. induction a as [|x a IH]; simpl; [done | by rewrite IH]. Qed.

Lemma lower_app (a b : string) : lower (a +:+ b) = lower a +:+ lower b.
Proof. induction a as [|x a IH]; simpl; [done | by rewrite IH]. Qed.

Lemma startswith_app (p b : string) : startswith p (p +:+ b) = true.
Proof. induction p as [|x p IH]; simpl; [done | by rewrite Ascii.eqb_refl]. Qed.

Lemma startswith_inv (p s : string) :
  startswith p s = true → ∃ b, s = p +:+ b.
Proof.
  revert s. induction p as [|x p IH]; intros s H; simpl in *.
  - by exists s.
  - destruct s as [|y s]; [done |].
    destruct (Ascii.eqb_spec x y) as [->|]; [| done].
    destruct (IH _ H) as [b ->]. by exists b.
Qed.

Lemma contains_startswith (n h : string) :
  startswith n h = true → contains n h = true.
Proof. destruct h; simpl; by intros ->. Qed.

Lemma contains_app (n a b : string) : contains n (a +:+ n +:+ b) = true.
Proof.
  induction a as [|x a IH]; simpl.
  - apply contains_startswith, startswith_app.
  - rewrite IH. apply orb_true_r.
Qed.

Lemma contains_inv (n h : string) :
  contains n h = true → ∃ a b, h = a +:+ n +:+ b.
Proof.
  induction h as [|x h IH]; simpl; intros H.
  - rewrite orb_false_r in H. destruct (startswith_inv _ _ H) as [b Hb].
    by exists "", b.
  - apply orb_true_iff in H as [H|H].
    + destruct (startswith_inv _ _ H) as [b Hb]. by exists "", b.
    + destruct (IH H) as (a & b & ->). by exists (String x a), b.
Qed.

Lemma contains_iff (n h : string) :
  contains n h = true ↔ ∃ a b, h = a +:+ n +:+ b.
Proof.
  split; [apply contains_inv |]. intros (a & b & ->). apply contains_app.
Qed.

Lemma str_drop_length_app (p b : string) : drop (String.length p) (p +:+ b) = b.
Proof. induction p as [|x p IH]; simpl; done. Qed.

Lemma str_drop_app_le (n : nat) (x q : string) :
  (n ≤ String.length x)%nat → drop n (x +:+ q) = drop n x +:+ q.
Proof.
  revert x. induction n as [|n IH]; intros x Hn; simpl; [done |].
  destruct x as [|c x]; simpl in *; [lia |]. apply IH. lia.
Qed.

(** [split1] returns an occurrence of the separator ... *)
Lemma startswith_drop (p s : string) :
  startswith p s = true → s = p +:+ drop (String.length p) s.
Proof.
  intros [b ->]%startswith_inv. by rewrite str_drop_length_app.
Qed.

Lemma split1_sound (sep s a b : string) :
  split1 sep s = Some (a, b) → s = a +:+ sep +:+ b.
Proof.
  revert a b. induction s as [|c s IH]; intros a b; simpl.
  - destruct (startswith sep "") eqn:E; [| done].
    intros [= <- <-]. by apply startswith_drop in E.
  - destruct (startswith sep (String c s)) eqn:E.
    + intros [= <- <-]. by apply startswith_drop in E.
    + destruct (split1 sep s) as [[a0 b0]|] eqn:E'; [| done].
      intros [= <- <-]. simpl. f_equal. by apply IH.
Qed.

(** ... and it is the leftmost one. *)
Lemma split1_leftmost (sep s a b a' b' : string) :
  split1 sep s = Some (a, b) → s = a' +:+ sep +:+ b' →
  (String.length a ≤ String.length a')%nat.
Proof.
  revert a a'. induction s as [|c s IH]; intros a a'; simpl.
  - destruct (startswith sep ""); [| done]. intros [= <- <-] _. simpl. lia.
  - destruct (startswith sep (String c s)) eqn:E.
    + intros [= <- <-] _. simpl. lia.
    + destruct (split1 sep s) as [[a0 b0]|] eqn:E'; [| done].
      intros [= <- <-] Hs. destruct a' as [|c' a'']; simpl in Hs.
      * rewrite Hs, startswith_app in E. done.
      * injection Hs as -> Hs. simpl. specialize (IH a0 a'' eq_refl Hs). lia.
Qed.

Lemma split1_startswith (sep s : string) :
  startswith sep s = true → split1 sep s = Some ("", drop (String.length sep) s).
Proof. destruct s; simpl; by intros ->. Qed.

Lemma split1_complete (sep p q : string) :
  ∃ a r, split1 sep (p +:+ sep +:+ q) = Some (a, r +:+ q).
Proof.
  induction p as [|c p IH].
  - exists "", "". simpl.
    rewrite split1_startswith by apply startswith_app.
    by rewrite str_drop_length_app.
  - destruct (startswith sep (String c p +:+ sep +:+ q)) eqn:E.
    + exists "", (drop (String.length sep) (String c p +:+ sep)).
      rewrite split1_startswith by done.
      rewrite <- str_drop_app_le, str_app_assoc; [done |].
      rewrite str_length_app. lia.
    + destruct IH as (a & r & IH). exists (String c a), r.
      simpl in *. by rewrite E, IH.
Qed.

Lemma split1_of_contains (sep s : string) :
  contains sep s = true → ∃ a b, split1 sep s = Some (a, b).
Proof.
  intros (p & q & ->)%contains_inv.
  destruct (split1_complete sep p q) as (a & r & ->). eauto.
Qed.

(** Lower-casing leaves no upper-case letter behind. *)
Lemma lower_char_not_upper (c : ascii) : is_upper (lower_char c) = false.
Proof. destruct c as [[] [] [] [] [] [] [] []]; reflexivity. Qed.

Lemma startswith_upper_lower (c : ascii) (p s : string) :
  is_upper c = true → startswith (String c p) (lower s) = false.
Proof.
  intros Hc. destruct s as [|x s]; simpl; [done |].
  destruct (Ascii.eqb_spec c (lower_char x)) as [->|]; [| done].
  by rewrite lower_char_not_upper in Hc.
Qed.

Lemma contains_upper_lower (c : ascii) (p s : string) :
  is_upper c = true → contains (String c p) (lower s) = false.
Proof.
  intros Hc. induction s as [|x s IH].
  - reflexivity.
  - change (lower (String x s)) with (String (lower_char x) (lower s)).
    cbn [contains]. rewrite IH, orb_false_r.
    change (String (lower_char x) (lower s)) with (lower (String x s)).
    by apply startswith_upper_lower.
Qed.

(** Stripping keeps an occurrence whose first and last characters are
    not white space. *)
Lemma lstrip_keeps (c : ascii) (m a b : string) :
  isspace c = false →
  ∃ a', lstrip (a +:+ String c m +:+ b) = a' +:+ String c m +:+ b.
Proof.
  intros Hc. induction a as [|x a IH]; simpl.
  - exists "". by rewrite Hc.
  - destruct (isspace x); [done |]. by exists (String x a).
Qed.

Lemma rstrip_nonspace (x : string) (c : ascii) (y : string) :
  isspace c = false → rstrip (x +:+ String c y) = x +:+ String c (rstrip y).
Proof.
  intros Hc. induction x as [|d x IH]; simpl.
  - rewrite Hc. by destruct (rstrip y).
  - rewrite IH. by destruct x.
Qed.

Lemma strip_keeps (c1 c2 : ascii) (m m' a b : string) :
  isspace c1 = false → isspace c2 = false →
  String c1 m = m' +:+ String c2 "" →
  ∃ a' b', strip (a +:+ String c1 m +:+ b) = a' +:+ String c1 m +:+ b'.
Proof.
  intros H1 H2 Hm. unfold strip.
  destruct (lstrip_keeps c1 m a b H1) as [a' ->].
  exists a', (rstrip b).
  rewrite Hm, !str_app_assoc. simpl.
  rewrite <- (str_app_assoc a' m'), rstrip_nonspace by done.
  by rewrite str_app_assoc.
Qed.

Lemma contains_strip (c1 c2 : ascii) (m m' s : string) :
  isspace c1 = false → isspace c2 = false →
  String c1 m = m' +:+ String c2 "" →
  contains (String c1 m) s = true → contains (String c1 m) (strip s) = true.
Proof.
  intros H1 H2 Hm (a & b & ->)%contains_inv.
  destruct (strip_keeps c1 c2 m m' a b H1 H2 Hm) as (a' & b' & ->).
  apply contains_app.
Qed.
End PyStrFacts.

(** ** The action policy *)

Section ActionPolicy.
Import PyStr PyStrFacts ActionAgent.

Lemma py_eq_true (a : pystr) (s : string) : py_eq a s = true ↔ a = Some s.
Proof.
  destruct a as [t|]; simpl; [| done].
  destruct (String.eqb_spec t s); split; congruence.
Qed.

Lemma py_or_truthy (s : string) (b : pystr) :
  truthy s = true → py_or (Some s) b = Some s.
Proof. unfold py_or. by intros ->. Qed.

Lemma contains_truthy (n : string) (c : ascii) (s : string) :
  contains (String c n) s = true → truthy s = true.
Proof. by destruct s. Qed.

(** A literal occurrence of a lower-case word survives lower-casing. *)
Lemma contains_lower (n s : string) :
  lower n = n → contains n s = true → contains n (lower s) = true.
Proof.
  intros Hn (a & b & ->)%contains_inv.
  rewrite !lower_app, Hn. apply contains_app.
Qed.

(** On a [web_search] request with a non-empty payload the verdict is
    decided by the two content rules alone. *)
Lemma validate_web_search (ad : action_data) (d : string) :
  ad !! "action" = Some "web_search" → ad !! "query" = Some d → truthy d = true →
  validate_action ad =
    if any_in illegal_search (lower d) then
      Ret (false, "Cannot perform web search for harmful or illegal content.")
    else if contains "delete" (lower d) || contains "format" (lower d) then
      Ret (false, "Cannot perform web search for potentially destructive actions.")
    else Ret (true, "Action is valid.").
Proof.
  intros Ha Hq Hd. unfold validate_action.
  rewrite Ha, Hq, !py_or_truthy by done.
  change (py_eq (Some "web_search") "web_search") with true. cbv iota.
  unfold details_any. rewrite Hd. cbn [andb].
  destruct (any_in illegal_search (lower d)); [done |].
  by destruct (contains "delete" (lower d) || contains "format" (lower d)).
Qed.

Lemma validate_destructive (ad : action_data) (d : string) :
  ad !! "action" = Some "web_search" → ad !! "query" = Some d →
  contains "delete" (lower d) || contains "format" (lower d) = true →
  ∃ msg, validate_action ad = Ret (false, msg).
Proof.
  intros Ha Hq Hd.
  assert (truthy d = true) as Ht.
  { destruct d; [vm_compute in Hd; discriminate | reflexivity]. }
  rewrite (validate_web_search ad d Ha Hq Ht), Hd.
  destruct (any_in illegal_search (lower d)); eauto.
Qed.

Lemma information_has_format (d : string) :
  contains "information" d = true → contains "format" (lower d) = true.
Proof.
  intros (a & b & ->)%contains_inv.
  rewrite !lower_app.
  change (lower "information") with ("in" +:+ "format" +:+ "ion").
  rewrite !str_app_assoc, <- (str_app_assoc (lower a) "in").
  apply contains_app.
Qed.

Lemma determine_action_total (s : string) : ∃ ad, determine_action s = Ret ad.
Proof.
  unfold determine_action.
  destruct (contains marker (lower s)) eqn:E.
  - destruct (split1_of_contains _ _ E) as (a & b & ->). eauto.
  - repeat case_match; eauto.
Qed.

Lemma py_eq_false (a : pystr) (s : string) : a ≠ Some s → py_eq a s = false.
Proof.
  intros H. destruct (py_eq a s) eqn:E; [| done]. by apply py_eq_true in E.
Qed.

(** C5: [validate_action] returns the valid verdict for every request
    whose type is ['none'], whatever else the dictionary holds, and an
    invalid verdict for every request whose type is none of ['none'],
    ['web_search'], ['save_data'], ['schedule_meeting'] (a missing type
    included), whatever the payload. *)
Theorem C5_closed_world_policy :
  (∀ ad : action_data,
      ad !! "action" = Some "none" →
      validate_action ad = Ret (true, "Action is valid."))
  ∧ (∀ ad : action_data,
      ad !! "action" ∉ [Some "none"; Some "web_search"; Some "save_data";
                        Some "schedule_meeting"] →
      validate_action ad =
        Ret (false, "Unsupported or unauthorized action: '"
                    +:+ py_fmt (ad !! "action") +:+ "'.")).
Proof.
  split; intros ad H; unfold validate_action.
  - by rewrite H.
  - rewrite !not_elem_of_cons in H. destruct H as (Hn & Hw & Hs & Hm & _).
    rewrite !py_eq_false by done.
    unfold closed_world, unknown_type, known_actions. simpl existsb.
    by rewrite !py_eq_false by done.
Qed.

(** C5 at two requests: type ['none'] with a destructive-looking payload,
    and an unknown type. *)
Lemma C5_closed_world_policy_witness :
  validate_action {[ "action" := "none"; "query" := "format the disk" ]}
    = Ret (true, "Action is valid.")
  ∧ validate_action {[ "action" := "send_email"; "details" := "hello" ]}
    = Ret (false, "Unsupported or unauthorized action: 'send_email'.").
Proof.
  destruct C5_closed_world_policy as [Hnone Hunknown]. split.
  - apply Hnone. reflexivity.
  - refine (eq_trans (Hunknown {[ "action" := "send_email"; "details" := "hello" ]} _) _);
      [| reflexivity].
    rewrite !not_elem_of_cons. repeat split; try discriminate.
    apply not_elem_of_nil.
Defined.

(** C4: on the [web_search] request that [determine_action] derives from
    a summary ending in the marker, whose payload is empty,
    [validate_action] does not return a verdict: [details] is [None] and
    [details.lower()] raises [AttributeError]. *)
Theorem C4_empty_payload_raises :
  determine_action "Text analysis: search the web for"
    = Ret {[ "action" := "web_search"; "query" := "" ]}
  ∧ validate_action {[ "action" := "web_search"; "query" := "" ]}
    = Raise (AttributeError "'NoneType' object has no attribute 'lower'").
Proof. split; reflexivity. Qed.

(** The same defect seen from the route: when the analysis of the user's
    text ends in the marker, the turn is answered with the 500 error
    carrying that exception. *)
Example empty_payload_turn :
  outcome (Main.chat (env_answer "The user wants to search the web for")
             search_request world0)
  = Ret (Main.ErrorReply 500 "'NoneType' object has no attribute 'lower'").
Proof. reflexivity. Qed.

(** C6 (as stated) fails: the summary "search the web for Cats" is the
    marker followed by " Cats", which trims to "Cats", yet the payload
    derived is "cats". *)
Lemma C6_counterexample :
  "search the web for Cats" = marker +:+ " Cats"
  ∧ strip " Cats" = "Cats"
  ∧ determine_action "search the web for Cats"
    = Ret {[ "action" := "web_search"; "query" := "cats" ]}
  ∧ determine_action "search the web for Cats"
    ≠ Ret {[ "action" := "web_search"; "query" := "Cats" ]}.
Proof.
  repeat split; try reflexivity.
  intros H.
  apply (f_equal (λ r : result action_data,
                    match r with Ret m => m !! "query" | Raise _ => None end)) in H.
  vm_compute in H. discriminate.
Qed.

(** C6 (amended): [determine_action] always returns, by first match in
    the order web_search, save_data, schedule_meeting, none over the
    lower-cased summary; when the lower-cased summary contains the
    marker, the payload is the text of the LOWER-CASED summary after the
    leftmost occurrence of the marker, trimmed. *)
Theorem C6_determine_action_priority (summary : string) :
  (contains marker (lower summary) = true →
     ∃ before after,
       lower summary = before +:+ marker +:+ after
       ∧ (∀ before' after', lower summary = before' +:+ marker +:+ after' →
            (String.length before ≤ String.length before')%nat)
       ∧ determine_action summary
         = Ret {[ "action" := "web_search"; "query" := strip after ]})
  ∧ (contains marker (lower summary) = false →
     contains "save this information" (lower summary) = true →
     determine_action summary = Ret {[ "action" := "save_data"; "data" := summary ]})
  ∧ (contains marker (lower summary) = false →
     contains "save this information" (lower summary) = false →
     contains "schedule" (lower summary) && contains "meeting" (lower summary) = true →
     determine_action summary
     = Ret {[ "action" := "schedule_meeting"; "details" := summary ]})
  ∧ (contains marker (lower summary) = false →
     contains "save this information" (lower summary) = false →
     contains "schedule" (lower summary) && contains "meeting" (lower summary) = false →
     determine_action summary = Ret {[ "action" := "none" ]}).
Proof.
  unfold determine_action. repeat split.
  - intros H. rewrite H.
    destruct (split1_of_contains _ _ H) as (before & after & Hs).
    exists before, after. rewrite Hs. repeat split.
    + by apply split1_sound.
    + intros before' after' Hs'. exact (split1_leftmost _ _ _ _ _ _ Hs Hs').
  - by intros -> ->.
  - by intros -> -> ->.
  - by intros -> -> ->.
Qed.

(** C6 (amended) at a mixed-case summary with padding around the payload. *)
Lemma C6_determine_action_priority_witness :
  ∃ before after,
    lower "Now Search The Web For  Rocq Docs " = before +:+ marker +:+ after
    ∧ (∀ before' after',
         lower "Now Search The Web For  Rocq Docs " = before' +:+ marker +:+ after' →
         (String.length before ≤ String.length before')%nat)
    ∧ determine_action "Now Search The Web For  Rocq Docs "
      = Ret {[ "action" := "web_search"; "query" := strip after ]}.
Proof.
  apply (proj1 (C6_determine_action_priority "Now Search The Web For  Rocq Docs ")).
  reflexivity.
Defined.

End ActionPolicy.

Section MonadFacts.
Context {A B : Type}.
Implicit Types (Q : event → Prop).

Lemma run_bind (m : M A) (k : A → M B) (w : world) :
  bind m k w =
    match m w with
    | (Ret a, w1, t1) => (outcome (k a w1), final (k a w1), t1 ++ events (k a w1))
    | (Raise e, w1, t1) => (Raise e, w1, t1)
    end.
Proof.
  unfold bind. destruct (m w) as [[[a|e] w1] t1]; [| done].
  by destruct (k a w1) as [[r w2] t2].
Qed.

Lemma run_try (m : M A) (h : exn → M A) (w : world) :
  try_except m h w =
    match m w with
    | (Ret a, w1, t1) => (Ret a, w1, t1)
    | (Raise e, w1, t1) => (outcome (h e w1), final (h e w1), t1 ++ events (h e w1))
    end.
Proof.
  unfold try_except. destruct (m w) as [[[a|e] w1] t1]; [done |].
  by destruct (h e w1) as [[r w2] t2].
Qed.

Lemma only_ret Q (a : A) : only Q (ret a).
Proof. intros w. constructor. Qed.

Lemma only_raise Q (e : exn) : only Q (raise (A:=A) e).
Proof. intros w. constructor. Qed.

Lemma only_lift Q (r : result A) : only Q (lift r).
Proof. intros w. constructor. Qed.

Lemma only_bind Q (m : M A) (k : A → M B) :
  only Q m → (∀ a, only Q (k a)) → only Q (bind m k).
Proof.
  intros Hm Hk w. rewrite run_bind. specialize (Hm w).
  destruct (m w) as [[[a|e] w1] t1]; [| done].
  apply Forall_app. split; [done | apply Hk].
Qed.

Lemma only_try Q (m : M A) (h : exn → M A) :
  only Q m → (∀ e, only Q (h e)) → only Q (try_except m h).
Proof.
  intros Hm Hh w. rewrite run_try. specialize (Hm w).
  destruct (m w) as [[[a|e] w1] t1]; [done |].
  apply Forall_app. split; [done | apply Hh].
Qed.

Lemma only_weaken Q Q' (m : M A) :
  (∀ e, Q e → Q' e) → only Q m → only Q' m.
Proof. intros HQ Hm w. eapply Forall_impl; [apply Hm | done]. Qed.
End MonadFacts.

Lemma only_emit (Q : event → Prop) (e : event) : Q e → only Q (emit e).
Proof. intros He w. by repeat constructor. Qed.

Lemma only_add_message (Q : event → Prop) (role content : string) :
  Q (EvAppend role (JStr content)) → only Q (add_message role content).
Proof. intros He w. by repeat constructor. Qed.

Lemma only_get_full_history (Q : event → Prop) : only Q get_full_history.
Proof. intros w. constructor. Qed.

Lemma only_get_context_for_llm (Q : event → Prop) : only Q get_context_for_llm.
Proof. intros w. constructor. Qed.

(** ** The completion-service handler *)

Section HandlerFacts.
Variable env : Env.
Variable Q : event → Prop.
Variable why : purpose.
Hypothesis Qwhy : ∀ prompt, Q (EvCompletion why prompt).

Lemma only_model_generate_content (prompt : string) :
  only Q (model_generate_content env why prompt).
Proof.
  intros w. unfold model_generate_content, events.
  destruct (generate_content env (attempts w)); by repeat constructor.
Qed.

Lemma only_retry_loop (prompt : string) (left : nat) :
  only Q (retry_loop env why prompt left).
Proof.
  induction left as [|left IH]; simpl.
  - apply only_raise.
  - apply only_try; [apply only_model_generate_content |].
    intros []; auto using only_raise.
Qed.

Lemma only_generate_text (prompt : string) :
  only Q (generate_text env why prompt).
Proof.
  apply only_bind; [apply only_retry_loop | intros; apply only_lift].
Qed.

Lemma only_generate_vision_response (data : list Byte.byte) (prompt : string) :
  only Q (generate_vision_response env why data prompt).
Proof.
  apply only_bind; [apply only_retry_loop | intros; apply only_lift].
Qed.
End HandlerFacts.

(** Splits a chain of binds and closes the links made of store
    operations and plain returns. *)
Ltac only_links :=
  repeat (apply only_bind; [| intros]);
  try first
    [ apply only_ret | apply only_raise | apply only_lift
    | apply only_get_full_history | apply only_get_context_for_llm
    | apply only_add_message; exact I
    | apply only_emit; exact I
    | apply only_retry_loop; intros; first [exact I | reflexivity] ].

(** ** The content guardrail *)

Section Guardrail.
Import PyStr PyStrFacts GuardrailAgent.
Variable env : Env.

(** Stage 1 as the code runs it: a keyword found in the lower-cased
    text yields the unsafe verdict and no event at all. *)
Lemma scan_text_input_stage1 (text_input keyword : string) (w : world) :
  rule_based text_input = Some keyword →
  scan_text_input env text_input w =
    (Ret (false, "Your request contains content that violates our safety guidelines. Please rephrase your query."),
     w, []).
Proof. unfold scan_text_input. by intros ->. Qed.

(** The keyword "Hacking" is never found: the text it is searched in has
    been lower-cased. *)
Lemma hacking_never_matches (text_input : string) :
  contains "Hacking" (lower text_input) = false.
Proof. by apply contains_upper_lower. Qed.

Lemma stage2_verdict {A} (call : M A) (ok blocked internal : string) (w : world) :
  ∃ msg,
    try_except (call ;;; ret (true, ok)) (stage2_handler blocked internal) w
    = (Ret (returns (outcome (call w)), msg), final (call w), events (call w)).
Proof.
  rewrite run_try, run_bind. unfold outcome, final, events, ret.
  destruct (call w) as [[[a|e] w1] t1]; simpl.
  - rewrite app_nil_r. eauto.
  - destruct e; simpl; rewrite app_nil_r; eauto.
Qed.

(** C3: fail-closed.  For a text that passes Stage 1, and for every
    image, the guardrail returns a verdict whose safe flag is true
    exactly when the delegated Stage-2 call returned; whenever that call
    raises, whatever the exception (a safety rejection, a failure of the
    service, the exhaustion of the retries, a response without text),
    the verdict is unsafe.  The scan makes no other event than that
    call's. *)
Theorem C3_fail_closed (w : world) :
  (∀ text_input,
      rule_based text_input = None →
      ∃ safe msg,
        scan_text_input env text_input w
        = (Ret (safe, msg),
           final (generate_text env SafetyScan text_input w),
           events (generate_text env SafetyScan text_input w))
        ∧ (safe = true ↔ ∃ t, outcome (generate_text env SafetyScan text_input w) = Ret t)
        ∧ (∀ e, outcome (generate_text env SafetyScan text_input w) = Raise e →
                safe = false))
  ∧ (∀ image_data user_prompt,
      ∃ vision_prompt safe msg,
        scan_image_input env image_data user_prompt w
        = (Ret (safe, msg),
           final (generate_vision_response env SafetyScan image_data vision_prompt w),
           events (generate_vision_response env SafetyScan image_data vision_prompt w))
        ∧ (safe = true ↔
           ∃ t, outcome (generate_vision_response env SafetyScan image_data vision_prompt w) = Ret t)
        ∧ (∀ e, outcome (generate_vision_response env SafetyScan image_data vision_prompt w) = Raise e →
                safe = false)).
Proof.
  split.
  - intros text_input H1. unfold scan_text_input. rewrite H1.
    edestruct (stage2_verdict (generate_text env SafetyScan text_input)) as [msg ->].
    eexists _, msg. split; [done |].
    destruct (outcome _) as [t|e]; simpl.
    + split; [split; [eauto | done] | done].
    + split; [split; [done | by intros [t ?]] | done].
  - intros image_data user_prompt. unfold scan_image_input.
    match goal with
    | |- context [generate_vision_response env SafetyScan image_data ?p] =>
        exists p;
        edestruct (stage2_verdict (generate_vision_response env SafetyScan image_data p))
          as [msg ->]
    end.
    eexists _, msg. split; [done |].
    destruct (outcome _) as [t|e]; simpl.
    + split; [split; [eauto | done] | done].
    + split; [split; [done | by intros [t ?]] | done].
Qed.

Lemma only_scan_text_input (Q : event → Prop) (text_input : string) :
  (∀ prompt, Q (EvCompletion SafetyScan prompt)) →
  only Q (scan_text_input env text_input).
Proof.
  intros HQ. unfold scan_text_input. destruct (rule_based text_input).
  - apply only_ret.
  - apply only_try.
    + apply only_bind; [by apply only_generate_text | intros; apply only_ret].
    + intros []; apply only_ret.
Qed.

Lemma only_scan_image_input (Q : event → Prop) (data : list Byte.byte) (p : string) :
  (∀ prompt, Q (EvCompletion SafetyScan prompt)) →
  only Q (scan_image_input env data p).
Proof.
  intros HQ. unfold scan_image_input. apply only_try.
  - apply only_bind; [by apply only_generate_vision_response | intros; apply only_ret].
  - intros []; apply only_ret.
Qed.

(** C2: the text "Hacking" holds a phrase of the block list, yet
    [scan_text_input] sends it to the completion service and, when the
    service answers, returns the safe verdict. *)
Theorem C2_hacking_reaches_service (w : world) (answer : string) :
  generate_content env (attempts w) = Responded (Ret answer) →
  In "Hacking" malicious_keywords
  ∧ contains "Hacking" "Hacking" = true
  ∧ scan_text_input env "Hacking" w
    = (Ret (true, "Text input is safe."),
       {| store := store w; disk := disk w; attempts := S (attempts w) |},
       [EvCompletion SafetyScan "Hacking"]).
Proof.
  intros H. split; [simpl; tauto |]. split; [reflexivity |].
  unfold scan_text_input.
  change (rule_based "Hacking") with (@None string). cbv iota.
  rewrite run_try, run_bind. unfold generate_text, _call_gemini_model.
  rewrite run_bind. simpl retry_loop. rewrite run_try.
  unfold model_generate_content. rewrite H. reflexivity.
Qed.
End Guardrail.

(** C2 with a service that answers the scan. *)
Lemma C2_hacking_reaches_service_witness :
  GuardrailAgent.scan_text_input (env_answer "ok") "Hacking" world0
  = (Ret (true, "Text input is safe."),
     {| store := store world0; disk := disk world0; attempts := 1 |},
     [EvCompletion SafetyScan "Hacking"]).
Proof.
  apply (C2_hacking_reaches_service (env_answer "ok") world0 "ok"). reflexivity.
Defined.

(** C3 with a service on which every attempt times out. *)
Lemma C3_fail_closed_witness :
  ∃ safe msg,
    GuardrailAgent.scan_text_input env_timeout "hello" world0
    = (Ret (safe, msg),
       final (generate_text env_timeout SafetyScan "hello" world0),
       events (generate_text env_timeout SafetyScan "hello" world0))
    ∧ (safe = true ↔ ∃ t, outcome (generate_text env_timeout SafetyScan "hello" world0) = Ret t)
    ∧ (∀ e, outcome (generate_text env_timeout SafetyScan "hello" world0) = Raise e →
            safe = false).
Proof.
  apply (proj1 (C3_fail_closed env_timeout world0) "hello"). reflexivity.
Defined.

Example timeout_is_unsafe :
  GuardrailAgent.scan_text_input env_timeout "hello" world0
  = (Ret (false, "An internal error occurred during safety check. Please try again."),
     {| store := store world0; disk := disk world0; attempts := 3 |},
     [EvCompletion SafetyScan "hello"; EvCompletion SafetyScan "hello";
      EvCompletion SafetyScan "hello"]).
Proof. reflexivity. Qed.

(** ** The turn *)

Section Gating.

Lemma is_io_not_execute (tr : list event) (ad : action_data) :
  Forall is_io tr → EvExecute ad ∉ tr.
Proof.
  intros H Hin. rewrite Forall_forall in H. by apply (H _ Hin).
Qed.

Lemma gated_io (tr : list event) : Forall is_io tr → gated tr.
Proof.
  intros H before ad after ->.
  destruct (is_io_not_execute _ ad H). set_solver.
Qed.

Lemma gated_io_app (t u : list event) :
  Forall is_io t → gated u → gated (t ++ u).
Proof.
  intros Ht Hu. induction t as [|x t IH]; [done |].
  apply Forall_cons in Ht as [Hx Ht]. specialize (IH Ht).
  intros before ad after Heq. destruct before as [|y before]; simpl in Heq.
  - injection Heq as -> _. done.
  - injection Heq as <- Heq. destruct (IH _ _ _ Heq) as (Hne & msg & earlier & Hv & ->).
    split; [done |]. by exists msg, (x :: earlier).
Qed.

Lemma gated_app_io (u t : list event) :
  gated u → Forall is_io t → gated (u ++ t).
Proof.
  intros Hu Ht before ad after Heq.
  apply app_eq_inv in Heq as [(l & -> & Hl)|(l & -> & Hl)].
  - destruct l as [|x l]; simpl in Hl.
    + subst t. apply Forall_cons in Ht as [[] _].
    + injection Hl as <- ->. by apply (Hu before ad l).
  - subst t. apply Forall_app in Ht as [_ Ht]. apply Forall_cons in Ht as [[] _].
Qed.

Context {A B : Type}.

Lemma gated_only_io (m : M A) : only is_io m → gated_only m.
Proof. intros H w. apply gated_io, H. Qed.

Lemma gated_bind_io_l (m : M A) (k : A → M B) :
  only is_io m → (∀ a, gated_only (k a)) → gated_only (bind m k).
Proof.
  intros Hm Hk w. rewrite run_bind. specialize (Hm w).
  destruct (m w) as [[[a|e] w1] t1]; [| by apply gated_io].
  apply gated_io_app; [done | apply Hk].
Qed.

Lemma gated_bind_io_r (m : M A) (k : A → M B) :
  gated_only m → (∀ a, only is_io (k a)) → gated_only (bind m k).
Proof.
  intros Hm Hk w. rewrite run_bind. specialize (Hm w).
  destruct (m w) as [[[a|e] w1] t1]; [| done].
  apply gated_app_io; [done | apply Hk].
Qed.

Lemma gated_try_io (m : M A) (h : exn → M A) :
  gated_only m → (∀ e, only is_io (h e)) → gated_only (try_except m h).
Proof.
  intros Hm Hh w. rewrite run_try. specialize (Hm w).
  destruct (m w) as [[[a|e] w1] t1]; [done |].
  apply gated_app_io; [done | apply Hh].
Qed.
End Gating.

Section Turn.
Import PyStr PyStrFacts Main.
Variable env : Env.

Lemma run_validate_action (ad : action_data) (w : world) :
  Agents.validate_action ad w
  = (ActionAgent.validate_action ad, w, [EvValidate ad (ActionAgent.validate_action ad)]).
Proof.
  unfold Agents.validate_action. rewrite run_bind. unfold emit, lift.
  by destruct (ActionAgent.validate_action ad).
Qed.

Lemma run_execute_action (ad : action_data) (w : world) :
  ∃ r rest,
    Agents.execute_action ad w = (r, w, EvExecute ad :: rest) ∧ Forall is_print rest.
Proof.
  unfold Agents.execute_action. rewrite run_bind. unfold emit.
  repeat case_match; unfold Agents.first50;
    repeat (rewrite run_bind; unfold emit, ret, raise);
    repeat case_match; simplify_eq; simpl;
    eexists _, _; (split; [reflexivity |]); repeat constructor.
Qed.

Lemma action_step_run (context_summary : string) (ad : action_data) (w : world) :
  ActionAgent.determine_action context_summary = Ret ad →
  action_step context_summary w =
    match ActionAgent.validate_action ad with
    | Raise e => (Raise e, w, [EvValidate ad (Raise e)])
    | Ret (false, msg) =>
        (Ret ("[ACTION BLOCKED]: " +:+ msg), w, [EvValidate ad (Ret (false, msg))])
    | Ret (true, msg) =>
        match ad !! "action" with
        | None => (Raise (KeyError "'action'"), w, [EvValidate ad (Ret (true, msg))])
        | Some action =>
            if String.eqb action "none"
            then (Ret "[ACTION]: No specific action determined.", w,
                  [EvValidate ad (Ret (true, msg))])
            else (outcome (Main.executing ad action w), final (Main.executing ad action w),
                  EvValidate ad (Ret (true, msg)) :: events (Main.executing ad action w))
        end
    end.
Proof.
  intros Hd. unfold action_step. rewrite run_bind. unfold lift at 1. rewrite Hd.
  cbv beta iota. rewrite run_bind, run_validate_action.
  destruct (ActionAgent.validate_action ad) as [[[] msg]|e]; try reflexivity.
  cbv beta iota. cbn [negb]. destruct (ad !! "action") as [action|]; [| reflexivity].
  destruct (String.eqb action "none"); reflexivity.
Qed.

Lemma executing_events (ad : action_data) (action : string) (w : world) :
  ∃ rest, events (Main.executing ad action w) = EvExecute ad :: rest ∧ Forall is_print rest.
Proof.
  unfold executing. rewrite run_bind.
  destruct (run_execute_action ad w) as (r & rest & -> & Hrest).
  exists rest. split; [| done]. destruct r; [| done].
  unfold events, ret. repeat case_match; cbn [snd]; by rewrite app_nil_r.
Qed.

(** What the action step does, case by case: it validates the derived
    request, and either stops there or, on a valid verdict for a type
    other than ['none'], goes on to execute that same request. *)
Lemma action_step_cases (context_summary : string) (w : world) :
  ∃ ad,
    ActionAgent.determine_action context_summary = Ret ad
    ∧ (events (action_step context_summary w)
         = [EvValidate ad (ActionAgent.validate_action ad)]
       ∨ (∃ msg rest,
            ActionAgent.validate_action ad = Ret (true, msg)
            ∧ ad !! "action" ≠ Some "none"
            ∧ Forall is_print rest
            ∧ events (action_step context_summary w)
              = EvValidate ad (Ret (true, msg)) :: EvExecute ad :: rest)).
Proof.
  destruct (determine_action_total context_summary) as [ad Hd].
  exists ad. split; [done |]. rewrite (action_step_run _ _ _ Hd).
  destruct (ActionAgent.validate_action ad) as [[[] msg]|e] eqn:Hv; try by left.
  destruct (ad !! "action") as [action|] eqn:Ha; [| by left].
  destruct (String.eqb_spec action "none") as [->|Hne]; [by left |].
  right. destruct (executing_events ad action w) as (rest & Hev & Hrest).
  exists msg, rest. repeat split; [congruence | done |].
  unfold events at 1. cbn [snd]. by rewrite Hev.
Qed.

Lemma action_step_gated (context_summary : string) :
  gated_only (action_step context_summary).
Proof.
  intros w before ad' after Heq.
  destruct (action_step_cases context_summary w)
    as (ad & _ & [Hev|(msg & rest & Hv & Hne & Hrest & Hev)]);
    rewrite Hev in Heq.
  - destruct before as [|? [|? ?]]; discriminate.
  - destruct before as [|x [|y before]]; simpl in Heq; [discriminate | |].
    + injection Heq as <- <- _. split; [done |]. by exists msg, [].
    + injection Heq as _ _ Heq. rewrite Heq in Hrest.
      apply Forall_app in Hrest as [_ Hrest]. apply Forall_cons in Hrest as [[] _].
Qed.

Lemma is_completion_io (why : purpose) (e : event) : is_completion_for why e → is_io e.
Proof. by destruct e. Qed.

Lemma only_guardrail_check (text : string) (file : option (string * list Byte.byte)) :
  only (is_completion_for SafetyScan) (guardrail_check env text file).
Proof.
  unfold guardrail_check. destruct (accepted_upload file) as [[? data]|].
  - apply only_bind; [by apply only_scan_image_input | intros; apply only_ret].
  - destruct (truthy text); [| apply only_ret].
    apply only_bind; [by apply only_scan_text_input | intros; apply only_ret].
Qed.

Lemma only_blocked_turn (text : string) (file : option (string * list Byte.byte))
    (msg : string) :
  only is_io (blocked_turn text file msg).
Proof.
  unfold blocked_turn. apply only_bind.
  - destruct (truthy text); [apply only_ret |].
    destruct file as [[? ?]|]; [apply only_ret | apply only_raise].
  - intros label. only_links.
Qed.

Lemma only_analysing (text : string) (file : option (string * list Byte.byte)) :
  only is_io (analysing env text file).
Proof.
  unfold analysing. destruct (accepted_upload file) as [[? data]|].
  - only_links.
  - destruct (truthy text); [| apply only_ret].
    only_links.
Qed.

Lemma safe_turn_gated (text : string) (file : option (string * list Byte.byte)) :
  gated_only (safe_turn env text file).
Proof.
  unfold safe_turn. apply gated_try_io; [| intros; apply only_ret].
  apply gated_bind_io_l; [apply only_analysing |]. intros [context_summary gemini_response].
  apply gated_bind_io_r; [apply action_step_gated |]. intros action_message.
  only_links.
Qed.

(** C1: in every turn, whatever the request, the store and the answers
    of the completion service, each call of [execute_action] comes right
    after a call of [validate_action] on the same [action_data] that
    returned the valid verdict, and that [action_data] is not of type
    ['none']. *)
Theorem C1_execution_is_gated (req : Request) (w : world)
    (before after : list event) (ad : action_data) :
  events (chat env req w) = before ++ EvExecute ad :: after →
  ad !! "action" ≠ Some "none"
  ∧ ∃ msg earlier,
      ActionAgent.validate_action ad = Ret (true, msg)
      ∧ before = earlier ++ [EvValidate ad (Ret (true, msg))].
Proof.
  revert before ad after. change (gated (events (chat env req w))). revert w.
  change (gated_only (chat env req)). unfold chat.
  apply gated_bind_io_l; [apply only_get_context_for_llm |]. intros _.
  apply gated_bind_io_l.
  { eapply only_weaken; [apply is_completion_io | apply only_guardrail_check]. }
  intros [[[] msg]|].
  - apply safe_turn_gated.
  - apply gated_only_io, only_blocked_turn.
  - apply gated_only_io, only_ret.
Qed.
End Turn.

Section TurnClaims.
Import PyStr PyStrFacts Main.
Variable env : Env.

Lemma run_blocked_turn (text : string) (file : option (string * list Byte.byte))
    (msg label : string) (w : world) :
  (truthy text = true ∧ label = text)
  ∨ (truthy text = false
     ∧ ∃ filename data, file = Some (filename, data)
                        ∧ label = "[Image: " +:+ filename +:+ "]") →
  let s1 := (ContextManager.add_message (store w) "user" (JStr label)).1 in
  let s2 := ContextManager.add_message s1 "model" (JStr ("[Guardrail]: " +:+ msg)) in
  blocked_turn text file msg w
  = (Ret (ChatReply ("System: " +:+ msg) (ContextManager.get_full_history s2.1)),
     {| store := s2.1; disk := s2.2; attempts := attempts w |},
     [EvAppend "user" (JStr label); EvAppend "model" (JStr ("[Guardrail]: " +:+ msg))]).
Proof.
  intros [[Ht ->]|(Ht & filename & data & -> & ->)];
    unfold blocked_turn; rewrite Ht; reflexivity.
Qed.

Lemma run_chat_blocked (req : Request) (w w1 : world) (msg label : string)
    (scan : list event) :
  guardrail_check env (strip (text_input req)) (image_file req) w
    = (Ret (Some (false, msg)), w1, scan) →
  (truthy (strip (text_input req)) = true ∧ label = strip (text_input req))
  ∨ (truthy (strip (text_input req)) = false
     ∧ ∃ filename data, image_file req = Some (filename, data)
                        ∧ label = "[Image: " +:+ filename +:+ "]") →
  let s1 := (ContextManager.add_message (store w1) "user" (JStr label)).1 in
  let s2 := ContextManager.add_message s1 "model" (JStr ("[Guardrail]: " +:+ msg)) in
  chat env req w
  = (Ret (ChatReply ("System: " +:+ msg) (ContextManager.get_full_history s2.1)),
     {| store := s2.1; disk := s2.2; attempts := attempts w1 |},
     scan ++ [EvAppend "user" (JStr label);
              EvAppend "model" (JStr ("[Guardrail]: " +:+ msg))]).
Proof.
  intros Hg Hlabel. unfold chat. rewrite run_bind.
  unfold get_context_for_llm. cbv beta iota.
  rewrite run_bind, Hg. cbv beta iota. cbn [negb].
  by rewrite (run_blocked_turn _ _ msg label w1 Hlabel).
Qed.

(** C7: when the guardrail returns an unsafe verdict, the turn appends
    exactly two entries to the history, the user's text (or, without
    text, the label of the image) and a model entry carrying the
    guardrail message, answers at once with that message, and apart from
    the guardrail's own safety scan makes no call to the completion
    service: no content analysis, no action step, no response
    generation. *)
Theorem C7_blocked_turn (req : Request) (w w1 : world) (msg : string)
    (scan : list event) :
  guardrail_check env (strip (text_input req)) (image_file req) w
    = (Ret (Some (false, msg)), w1, scan) →
  ∃ label,
    ((truthy (strip (text_input req)) = true ∧ label = strip (text_input req))
     ∨ (truthy (strip (text_input req)) = false
        ∧ ∃ filename data,
            image_file req = Some (filename, data)
            ∧ label = "[Image: " +:+ filename +:+ "]"))
    ∧ Forall (is_completion_for SafetyScan) scan
    ∧ events (chat env req w)
      = scan ++ [EvAppend "user" (JStr label);
                 EvAppend "model" (JStr ("[Guardrail]: " +:+ msg))]
    ∧ outcome (chat env req w)
      = Ret (ChatReply ("System: " +:+ msg)
               (ContextManager.get_full_history (store (final (chat env req w)))))
    ∧ store (final (chat env req w))
      = (ContextManager.add_message
           (ContextManager.add_message (store w1) "user" (JStr label)).1
           "model" (JStr ("[Guardrail]: " +:+ msg))).1
    ∧ attempts (final (chat env req w)) = attempts w1.
Proof.
  intros Hg.
  assert (Forall (is_completion_for SafetyScan) scan) as Hscan.
  { pose proof (only_guardrail_check env (strip (text_input req)) (image_file req) w) as H.
    by rewrite Hg in H. }
  destruct (truthy (strip (text_input req))) eqn:Ht.
  - exists (strip (text_input req)). split; [by left |]. split; [done |].
    by rewrite (run_chat_blocked req w w1 msg _ scan Hg) by by left.
  - assert (∃ filename data, image_file req = Some (filename, data))
      as (filename & data & Hf).
    { unfold guardrail_check in Hg. rewrite Ht in Hg.
      destruct (image_file req) as [[filename data]|]; [eauto | discriminate]. }
    assert (truthy (strip (text_input req)) = true
              ∧ "[Image: " +:+ filename +:+ "]" = strip (text_input req)
            ∨ truthy (strip (text_input req)) = false
              ∧ ∃ filename0 data0,
                  image_file req = Some (filename0, data0)
                  ∧ "[Image: " +:+ filename +:+ "]" = "[Image: " +:+ filename0 +:+ "]")
      as Hlabel by (right; eauto).
    exists ("[Image: " +:+ filename +:+ "]"). split; [right; eauto |]. split; [done |].
    by rewrite (run_chat_blocked req w w1 msg _ scan Hg Hlabel).
Qed.
End TurnClaims.

(** C7 on the text "format hard drive", which Stage 1 blocks. *)
Lemma C7_blocked_turn_witness :
  ∃ label,
    ((PyStr.truthy (PyStr.strip (Main.text_input blocked_request)) = true
      ∧ label = PyStr.strip (Main.text_input blocked_request))
     ∨ (PyStr.truthy (PyStr.strip (Main.text_input blocked_request)) = false
        ∧ ∃ filename data,
            Main.image_file blocked_request = Some (filename, data)
            ∧ label = "[Image: " +:+ filename +:+ "]"))
    ∧ Forall (is_completion_for SafetyScan) []
    ∧ events (Main.chat env_timeout blocked_request world0)
      = [] ++ [EvAppend "user" (JStr label);
               EvAppend "model"
                 (JStr ("[Guardrail]: " +:+
                        "Your request contains content that violates our safety guidelines. Please rephrase your query."))]
    ∧ outcome (Main.chat env_timeout blocked_request world0)
      = Ret (Main.ChatReply
               ("System: " +:+
                "Your request contains content that violates our safety guidelines. Please rephrase your query.")
               (ContextManager.get_full_history
                  (store (final (Main.chat env_timeout blocked_request world0)))))
    ∧ store (final (Main.chat env_timeout blocked_request world0))
      = (ContextManager.add_message
           (ContextManager.add_message (store world0) "user" (JStr label)).1
           "model"
           (JStr ("[Guardrail]: " +:+
                  "Your request contains content that violates our safety guidelines. Please rephrase your query."))).1
    ∧ attempts (final (Main.chat env_timeout blocked_request world0)) = attempts world0.
Proof.
  apply (C7_blocked_turn env_timeout blocked_request world0 world0). reflexivity.
Defined.

Section Destructive.
Import PyStr PyStrFacts ActionAgent.

Lemma information_kept_by_strip (s : string) :
  contains "information" s = true → contains "information" (strip s) = true.
Proof. by apply (contains_strip "i" "n" "nformation" "informatio"). Qed.

(** C9: the destructive-query rule is substring containment on the
    lower-cased payload, so a [web_search] request whose payload holds
    "format" or "delete" anywhere, inside a longer word too, is
    rejected; every payload holding "information" is rejected; and from
    a summary that holds "search the web for information" the action
    step derives a request that is validated, rejected and never
    executed. *)
Theorem C9_substring_rule_rejects_information :
  (∀ (ad : action_data) (payload : string),
      ad !! "action" = Some "web_search" → ad !! "query" = Some payload →
      contains "format" (lower payload) = true
      ∨ contains "delete" (lower payload) = true →
      ∃ msg, validate_action ad = Ret (false, msg))
  ∧ (∀ (ad : action_data) (payload : string),
      ad !! "action" = Some "web_search" → ad !! "query" = Some payload →
      contains "information" payload = true →
      ∃ msg, validate_action ad = Ret (false, msg))
  ∧ (∀ (summary : string) (w : world),
      contains "search the web for information" (lower summary) = true →
      ∃ payload msg,
        determine_action summary
          = Ret {[ "action" := "web_search"; "query" := payload ]}
        ∧ contains "information" payload = true
        ∧ Main.action_step summary w
          = (Ret ("[ACTION BLOCKED]: " +:+ msg), w,
             [EvValidate {[ "action" := "web_search"; "query" := payload ]}
                (Ret (false, msg))])).
Proof.
  repeat split.
  - intros ad payload Ha Hq Hd. apply (validate_destructive ad payload Ha Hq).
    destruct Hd as [-> | ->]; [apply orb_true_r | done].
  - intros ad payload Ha Hq Hi. apply (validate_destructive ad payload Ha Hq).
    rewrite (information_has_format _ Hi). apply orb_true_r.
  - intros summary w (p & q & Hs)%contains_inv.
    change "search the web for information" with (marker +:+ " information") in Hs.
    rewrite str_app_assoc in Hs.
    destruct (split1_complete marker p (" information" +:+ q)) as (a & r & Hsplit).
    rewrite <- Hs in Hsplit.
    assert (contains marker (lower summary) = true) as Hm
      by (rewrite Hs; apply contains_app).
    set (payload := strip (r +:+ " information" +:+ q)).
    assert (determine_action summary
            = Ret {[ "action" := "web_search"; "query" := payload ]}) as Hdet.
    { unfold determine_action. by rewrite Hm, Hsplit. }
    assert (contains "information" payload = true) as Hinfo.
    { apply information_kept_by_strip.
      change " information" with (" " +:+ "information").
      rewrite str_app_assoc, <- (str_app_assoc r " "). apply contains_app. }
    destruct (validate_destructive
                {[ "action" := "web_search"; "query" := payload ]} payload)
      as [msg Hv]; [done | done | |].
    { rewrite (information_has_format _ Hinfo). apply orb_true_r. }
    exists payload, msg. split; [done |]. split; [done |].
    by rewrite (action_step_run summary _ w Hdet), Hv.
Qed.

(** C9 on a payload that holds "format" inside a longer word. *)
Lemma C9_substring_rule_rejects_information_witness :
  ∃ msg,
    validate_action {[ "action" := "web_search"; "query" := "reformatted text" ]}
    = Ret (false, msg).
Proof.
  apply (proj1 C9_substring_rule_rejects_information
           {[ "action" := "web_search"; "query" := "reformatted text" ]}
           "reformatted text"); [reflexivity | reflexivity |].
  left. reflexivity.
Defined.
End Destructive.

Example information_is_blocked :
  Main.action_step "Text analysis: Search the web for information about Rocq"
    world0
  = (Ret "[ACTION BLOCKED]: Cannot perform web search for potentially destructive actions.",
     world0,
     [EvValidate {[ "action" := "web_search"; "query" := "information about rocq" ]}
        (Ret (false, "Cannot perform web search for potentially destructive actions."))]).
Proof. reflexivity. Qed.

(** ** The history store *)

Section History.
Import ContextManager.

Lemma last_n_length {A} (n : nat) (l : list A) : (length (last_n n l) ≤ n)%nat.
Proof. unfold last_n. rewrite length_drop. lia. Qed.

Lemma last_n_short {A} (n : nat) (l : list A) : (length l ≤ n)%nat → last_n n l = l.
Proof. intros H. unfold last_n. by replace (length l - n)%nat with 0%nat by lia. Qed.

Lemma last_n_app {A} (n : nat) (a b : list A) :
  last_n n (last_n n a ++ b) = last_n n (a ++ b).
Proof.
  destruct (decide (length a ≤ n)%nat) as [Hle|Hgt].
  - by rewrite (last_n_short n a).
  - unfold last_n. rewrite !length_app, length_drop.
    replace (length a - (length a - n) + length b - n)%nat with (length b) by lia.
    replace (length a + length b - n)%nat
      with ((length a - n) + length b)%nat by lia.
    rewrite <- drop_drop. f_equal.
    rewrite drop_app_le by lia. done.
Qed.

Lemma add_message_max (self : t) (role : string) (content : json) :
  max_history_turns (add_message self role content).1 = max_history_turns self.
Proof. done. Qed.

Lemma add_message_history (self : t) (role : string) (content : json) :
  1 ≤ max_history_turns self →
  conversation_history (add_message self role content).1
  = last_n (Z.to_nat (max_history_turns self))
      (conversation_history self ++ [entry role content]).
Proof.
  intros Hmax. unfold add_message. cbn [fst conversation_history].
  set (h := conversation_history self ++ [entry role content]).
  destruct (Z.ltb_spec (max_history_turns self) (Z.of_nat (length h))) as [Hlt|Hge].
  - unfold slice_from, last_n.
    destruct (Z.ltb_spec (- max_history_turns self) 0) as [_|?]; [| lia].
    f_equal. lia.
  - rewrite last_n_short; [done | lia].
Qed.

Lemma append_all_max (self : t) (msgs : list (string * json)) :
  max_history_turns (append_all self msgs) = max_history_turns self.
Proof.
  revert self. induction msgs as [|[role content] msgs IH]; intros self; [done |].
  change (append_all self ((role, content) :: msgs))
    with (append_all (add_message self role content).1 msgs).
  by rewrite IH.
Qed.

Lemma append_all_history (self : t) (msgs : list (string * json)) :
  1 ≤ max_history_turns self →
  (length (conversation_history self) ≤ Z.to_nat (max_history_turns self))%nat →
  conversation_history (append_all self msgs)
  = last_n (Z.to_nat (max_history_turns self))
      (conversation_history self ++ entries msgs).
Proof.
  revert self. induction msgs as [|[role content] msgs IH]; intros self Hmax Hlen.
  - simpl. by rewrite app_nil_r, last_n_short.
  - change (append_all self ((role, content) :: msgs))
      with (append_all (add_message self role content).1 msgs).
    change (entries ((role, content) :: msgs))
      with (entry role content :: entries msgs).
    rewrite IH.
    + rewrite add_message_max, add_message_history by done.
      by rewrite last_n_app, <- app_assoc.
    + by rewrite add_message_max.
    + rewrite add_message_max, add_message_history by done. apply last_n_length.
Qed.

(** C8 (as stated) fails: with [max_history_turns = 0] one append
    leaves one entry ([h[-0:]] is all of [h]), and with a negative bound
    no length can be below it. *)
Lemma C8_counterexample :
  ¬ (Z.of_nat (length (get_full_history
                         (append_all (init FileAbsent 0) [("user", JStr "hi")]))) ≤ 0)
  ∧ ¬ (Z.of_nat (length (get_full_history
                           (append_all (init FileAbsent (-1)) [("user", JStr "hi")]))) ≤ -1).
Proof. split; vm_compute; intros H; by apply H. Qed.

(** C8 (amended): for every [max_history_turns >= 1] and every store
    that starts empty, after any sequence of [add_message] calls the
    stored sequence has at most [max_history_turns] entries, and they
    are the most recently appended ones in their original order. *)
Theorem C8_history_bounded (self : t) (msgs : list (string * json)) :
  1 ≤ max_history_turns self →
  conversation_history self = [] →
  Z.of_nat (length (get_full_history (append_all self msgs))) ≤ max_history_turns self
  ∧ get_full_history (append_all self msgs)
    = last_n (Z.to_nat (max_history_turns self)) (entries msgs).
Proof.
  intros Hmax Hempty. unfold get_full_history.
  rewrite append_all_history, Hempty by (rewrite ?Hempty; simpl; lia).
  split; [| done].
  pose proof (last_n_length (Z.to_nat (max_history_turns self)) ([] ++ entries msgs)).
  lia.
Qed.

(** C8 (amended) with a bound of two and three appends. *)
Lemma C8_history_bounded_witness :
  Z.of_nat (length (get_full_history
                      (append_all (init FileAbsent 2)
                         [("user", JStr "a"); ("model", JStr "b"); ("user", JStr "c")])))
    ≤ max_history_turns (init FileAbsent 2)
  ∧ get_full_history
      (append_all (init FileAbsent 2)
         [("user", JStr "a"); ("model", JStr "b"); ("user", JStr "c")])
    = last_n (Z.to_nat (max_history_turns (init FileAbsent 2)))
        (entries [("user", JStr "a"); ("model", JStr "b"); ("user", JStr "c")]).
Proof.
  apply (C8_history_bounded (init FileAbsent 2)); [simpl; lia | reflexivity].
Defined.

(** C10: loading never trims.  A well-formed persisted list longer than
    [max_history_turns] becomes the store's history as it is, so
    [get_full_history] returns more than [max_history_turns] entries;
    the next [add_message] takes the trimming branch, which for
    [max_history_turns >= 1] brings the length back to the bound. *)
Theorem C10_load_never_trims (history : list json) (max : Z) :
  forallb well_formed_item history = true →
  max < Z.of_nat (length history) →
  get_full_history (init (FileJSON (JArr history)) max) = history
  ∧ max < Z.of_nat (length (get_full_history (init (FileJSON (JArr history)) max)))
  ∧ (∀ role content,
       get_full_history (add_message (init (FileJSON (JArr history)) max) role content).1
       = slice_from (- max) (history ++ [entry role content]))
  ∧ (1 ≤ max → ∀ role content,
       Z.of_nat (length (get_full_history
                           (add_message (init (FileJSON (JArr history)) max)
                              role content).1)) = max).
Proof.
  intros Hwf Hlen.
  assert (get_full_history (init (FileJSON (JArr history)) max) = history) as Hload.
  { unfold get_full_history, init, _load_history. cbn. by rewrite Hwf. }
  assert (∀ role content,
    get_full_history (add_message (init (FileJSON (JArr history)) max) role content).1
    = slice_from (- max) (history ++ [entry role content])) as Hadd.
  { intros role content. unfold get_full_history in *. unfold add_message.
    cbn [fst conversation_history]. rewrite Hload.
    change (max_history_turns (init (FileJSON (JArr history)) max)) with max.
    destruct (Z.ltb_spec max (Z.of_nat (length (history ++ [entry role content]))))
      as [_|Hge]; [done |].
    rewrite length_app in Hge. simpl in Hge. lia. }
  repeat split; [done | by rewrite Hload | done |].
  intros Hmax role content. rewrite Hadd. unfold slice_from.
  destruct (Z.ltb_spec (- max) 0) as [_|?]; [| lia].
  rewrite length_drop, length_app. simpl. lia.
Qed.

(** C10 on three persisted entries and a bound of two. *)
Lemma C10_load_never_trims_witness :
  get_full_history (init (FileJSON (JArr persisted3)) 2) = persisted3
  ∧ 2 < Z.of_nat (length (get_full_history (init (FileJSON (JArr persisted3)) 2)))
  ∧ (∀ role content,
       get_full_history (add_message (init (FileJSON (JArr persisted3)) 2) role content).1
       = slice_from (- 2) (persisted3 ++ [entry role content]))
  ∧ (1 ≤ 2 → ∀ role content,
       Z.of_nat (length (get_full_history
                           (add_message (init (FileJSON (JArr persisted3)) 2)
                              role content).1)) = 2).
Proof.
  apply (C10_load_never_trims persisted3 2); [reflexivity | simpl; lia].
Defined.
End History.

(** C1 on a turn whose analysis asks for a web search: the execution is
    the sixth event of the turn, the validation the fifth. *)
Lemma C1_execution_is_gated_witness :
  cats_search !! "action" ≠ Some "none"
  ∧ ∃ msg earlier,
      ActionAgent.validate_action cats_search = Ret (true, msg)
      ∧ take 5 (events (Main.chat (env_answer "Please search the web for Cats")
                          search_request world0))
        = earlier ++ [EvValidate cats_search (Ret (true, msg))].
Proof.
  apply (C1_execution_is_gated (env_answer "Please search the web for Cats")
           search_request world0
           (take 5 (events (Main.chat (env_answer "Please search the web for Cats")
                              search_request world0)))
           (drop 6 (events (Main.chat (env_answer "Please search the web for Cats")
                              search_request world0)))
           cats_search).
  vm_compute. reflexivity.
Defined.

(** * Further properties *)

(** ** The retry loop of the completion-service handler *)

Section Retry.
Variable env : Env.
Variable why : purpose.
Variable prompt : string.

Lemma advance_0 (w : world) : advance 0 w = w.
Proof. by destruct w. Qed.

Lemma advance_add (a b : nat) (w : world) :
  advance a (advance b w) = advance (a + b) w.
Proof. unfold advance. simpl. f_equal. lia. Qed.

Lemma advance_S (n : nat) (w : world) : advance n (advance 1 w) = advance (S n) w.
Proof. rewrite advance_add. f_equal. lia. Qed.

Lemma run_model_generate_content (w : world) :
  model_generate_content env why prompt w
  = (match generate_content env (attempts w) with
     | Responded text => Ret text
     | Threw e => Raise e
     end, advance 1 w, [EvCompletion why prompt]).
Proof.
  unfold model_generate_content, advance.
  by destruct (generate_content env (attempts w)).
Qed.

Lemma run_retry_step (left : nat) (w : world) :
  retry_loop env why prompt (S left) w
  = match generate_content env (attempts w) with
    | Responded text => (Ret text, advance 1 w, [EvCompletion why prompt])
    | Threw e =>
        if is_blocked e then (Raise e, advance 1 w, [EvCompletion why prompt])
        else (outcome (retry_loop env why prompt left (advance 1 w)),
              final (retry_loop env why prompt left (advance 1 w)),
              EvCompletion why prompt :: events (retry_loop env why prompt left (advance 1 w)))
    end.
Proof.
  cbn [retry_loop]. rewrite run_try, run_model_generate_content.
  destruct (generate_content env (attempts w)) as [text|e]; [done |].
  destruct e; reflexivity.
Qed.

Lemma failing_tail (from n : nat) :
  failing env from (S n) → failing env (S from) n.
Proof.
  intros H i Hi. destruct (H (S i)) as (e & He & Hb); [lia |].
  exists e. split; [| done]. by replace (S from + i)%nat with (from + S i)%nat by lia.
Qed.

Lemma failing_head (from n : nat) :
  failing env from (S n) →
  ∃ e, generate_content env from = Threw e ∧ is_blocked e = false.
Proof.
  intros H. destruct (H 0%nat) as (e & He & Hb); [lia |].
  exists e. by rewrite Nat.add_0_r in He.
Qed.

(** After [k] failed attempts the loop stands where a fresh loop with
    [k] fewer iterations would, [k] attempts later. *)
Lemma retry_loop_skip (k left : nat) (w : world) :
  failing env (attempts w) k →
  retry_loop env why prompt (k + left) w
  = (outcome (retry_loop env why prompt left (advance k w)),
     final (retry_loop env why prompt left (advance k w)),
     replicate k (EvCompletion why prompt)
       ++ events (retry_loop env why prompt left (advance k w))).
Proof.
  revert w. induction k as [|k IH]; intros w Hfail.
  - rewrite advance_0. change (0 + left)%nat with left.
    by destruct (retry_loop env why prompt left w) as [[? ?] ?].
  - destruct (failing_head _ _ Hfail) as (e & He & Hb).
    change (S k + left)%nat with (S (k + left)).
    rewrite run_retry_step, He, Hb.
    rewrite IH by (apply failing_tail in Hfail; exact Hfail).
    by rewrite advance_S.
Qed.

(** X1: [_call_gemini_model] makes at least one and at most three attempts on
    the completion service, makes no event other than these attempts, and
    leaves the store and the history file as they were. *)
Theorem X1_retry_budget (w : world) :
  ∃ n, (1 ≤ n ≤ 3)%nat
       ∧ events (_call_gemini_model env why prompt w)
         = replicate n (EvCompletion why prompt)
       ∧ final (_call_gemini_model env why prompt w) = advance n w.
Proof.
  unfold _call_gemini_model.
  assert (∀ left w, ∃ n, (n ≤ left)%nat ∧ (left ≠ 0 → 1 ≤ n)%nat
            ∧ events (retry_loop env why prompt left w)
              = replicate n (EvCompletion why prompt)
            ∧ final (retry_loop env why prompt left w) = advance n w) as H.
  { clear w. induction left as [|left IH]; intros w.
    - exists 0%nat. rewrite advance_0. repeat split; [lia | done].
    - rewrite run_retry_step.
      destruct (generate_content env (attempts w)) as [text|e].
      + exists 1%nat. repeat split; lia.
      + destruct (is_blocked e).
        * exists 1%nat. repeat split; lia.
        * destruct (IH (advance 1 w)) as (n & Hn & _ & Hev & Hfin).
          exists (S n). unfold events, final in *. cbn [fst snd] in *.
          rewrite Hev, Hfin, advance_S. repeat split; lia. }
  destruct (H 3%nat w) as (n & Hn & Hpos & Hev & Hfin).
  exists n. repeat split; [lia | lia | done | done].
Qed.

Lemma call_after_failures (k : nat) (w : world) :
  (k < 3)%nat →
  failing env (attempts w) k →
  _call_gemini_model env why prompt w
  = match generate_content env (attempts w + k) with
    | Responded text =>
        (Ret text, advance (S k) w, replicate (S k) (EvCompletion why prompt))
    | Threw e =>
        if is_blocked e
        then (Raise e, advance (S k) w, replicate (S k) (EvCompletion why prompt))
        else (outcome (retry_loop env why prompt (2 - k) (advance (S k) w)),
              final (retry_loop env why prompt (2 - k) (advance (S k) w)),
              replicate (S k) (EvCompletion why prompt)
                ++ events (retry_loop env why prompt (2 - k) (advance (S k) w)))
    end.
Proof.
  intros Hk Hfail. unfold _call_gemini_model.
  replace 3%nat with (k + S (2 - k))%nat by lia.
  rewrite retry_loop_skip by done.
  rewrite run_retry_step. change (attempts (advance k w)) with (k + attempts w)%nat.
  rewrite (Nat.add_comm k), advance_add. change (1 + k)%nat with (S k).
  rewrite replicate_S_end.
  destruct (generate_content env (attempts w + k)) as [text|e]; [done |].
  destruct (is_blocked e); [done |].
  unfold outcome, final, events. cbn [fst snd]. by rewrite <- app_assoc.
Qed.

Lemma call_exhausted (w : world) :
  failing env (attempts w) 3 →
  _call_gemini_model env why prompt w
  = (Raise (Exception "Failed to call Gemini API after 3 attempts."),
     advance 3 w, replicate 3 (EvCompletion why prompt)).
Proof.
  intros Hfail. unfold _call_gemini_model.
  change 3%nat with (3 + 0)%nat at 1.
  rewrite retry_loop_skip by done. reflexivity.
Qed.

(** X2: after [k < 3] attempts that failed with an exception other than
    [BlockedPromptException], a response on the next attempt is returned at
    once and a [BlockedPromptException] on the next attempt is re-raised at
    once, without any retry: [k + 1] attempts in all. *)
Theorem X2_first_decisive_attempt (k : nat) (w : world) :
  (k < 3)%nat →
  failing env (attempts w) k →
  (∀ text,
      generate_content env (attempts w + k) = Responded text →
      _call_gemini_model env why prompt w
      = (Ret text, advance (S k) w, replicate (S k) (EvCompletion why prompt)))
  ∧ (∀ msg,
      generate_content env (attempts w + k) = Threw (BlockedPromptException msg) →
      _call_gemini_model env why prompt w
      = (Raise (BlockedPromptException msg), advance (S k) w,
         replicate (S k) (EvCompletion why prompt))).
Proof.
  intros Hk Hfail.
  split; intros x Hx; by rewrite (call_after_failures k w Hk Hfail), Hx.
Qed.

(** X3: when three attempts in a row fail with exceptions other than
    [BlockedPromptException], the call raises the generic exception
    "Failed to call Gemini API after 3 attempts." after exactly three
    attempts; the underlying errors are not passed on. *)
Theorem X3_retry_exhaustion (w : world) :
  failing env (attempts w) 3 →
  _call_gemini_model env why prompt w
  = (Raise (Exception "Failed to call Gemini API after 3 attempts."),
     advance 3 w, replicate 3 (EvCompletion why prompt)).
Proof. apply call_exhausted. Qed.

Lemma run_generate_text (w : world) :
  generate_text env why prompt w
  = (match outcome (_call_gemini_model env why prompt w) with
     | Ret response => response
     | Raise e => Raise e
     end,
     final (_call_gemini_model env why prompt w),
     events (_call_gemini_model env why prompt w)).
Proof.
  unfold generate_text. rewrite run_bind. unfold lift, outcome, final, events.
  destruct (_call_gemini_model env why prompt w) as [[[response|e] w1] t1];
    cbn [fst snd]; [| done].
  by rewrite app_nil_r.
Qed.

Lemma run_generate_vision_response (data : list Byte.byte) (w : world) :
  generate_vision_response env why data prompt w = generate_text env why prompt w.
Proof. done. Qed.
End Retry.

(** ** The guardrail, attempt by attempt *)

Section GuardrailAttempts.
Import PyStr PyStrFacts GuardrailAgent.
Variable env : Env.

Lemma run_stage2 {A} (call : M A) (ok blocked internal : string) (w : world) :
  try_except (call ;;; ret (true, ok)) (stage2_handler blocked internal) w
  = (Ret (stage2_verdict_of ok blocked internal (outcome (call w))),
     final (call w), events (call w)).
Proof.
  rewrite run_try, run_bind. unfold outcome, final, events, ret.
  destruct (call w) as [[[a|e] w1] t1]; cbn [fst snd].
  - by rewrite app_nil_r.
  - destruct e; cbn; by rewrite app_nil_r.
Qed.

Lemma rule_based_found (text_input keyword : string) :
  In keyword malicious_keywords →
  contains keyword (lower text_input) = true →
  ∃ k, rule_based text_input = Some k.
Proof.
  intros Hin Hc. unfold rule_based.
  destruct (List.find _ malicious_keywords) as [k|] eqn:E; [eauto |].
  pose proof (find_none _ _ E keyword Hin) as Hn. simpl in Hn. congruence.
Qed.

(** X4: a text whose lower-cased form contains one of the five lower-case
    phrases of the block list is rejected with the guideline message,
    whatever its letter case, with no event and no change of the world. *)
Theorem X4_stage1_blocks (text_input keyword : string) (w : world) :
  In keyword ["delete all files"; "format hard drive"; "steal credit card";
              "harm yourself"; "do something illegal"] →
  contains keyword (lower text_input) = true →
  scan_text_input env text_input w
  = (Ret (false, "Your request contains content that violates our safety guidelines. Please rephrase your query."),
     w, []).
Proof.
  intros Hin Hc.
  destruct (rule_based_found text_input keyword) as [k Hk]; [| done |].
  - simpl in *. tauto.
  - unfold scan_text_input. by rewrite Hk.
Qed.

Lemma run_scan_text_stage2 (text_input : string) (w : world) :
  rule_based text_input = None →
  scan_text_input env text_input w
  = (Ret (stage2_verdict_of "Text input is safe."
            "Your request was blocked by safety filters. Please try a different query."
            "An internal error occurred during safety check. Please try again."
            (outcome (generate_text env SafetyScan text_input w))),
     final (generate_text env SafetyScan text_input w),
     events (generate_text env SafetyScan text_input w)).
Proof. intros H. unfold scan_text_input. rewrite H. apply run_stage2. Qed.

(** X5: for a text that passes Stage 1, after [k < 3] failed attempts the
    next attempt decides the scan: an answer with text gives the safe
    verdict, a [BlockedPromptException] gives the "blocked by safety
    filters" verdict, and an answer whose text cannot be read gives an
    unsafe verdict; none of them is retried. *)
Theorem X5_scan_text_decisive_attempt (text_input : string) (k : nat) (w : world) :
  rule_based text_input = None →
  (k < 3)%nat →
  failing env (attempts w) k →
  (∀ answer,
      generate_content env (attempts w + k) = Responded (Ret answer) →
      scan_text_input env text_input w
      = (Ret (true, "Text input is safe."),
         advance (S k) w, replicate (S k) (EvCompletion SafetyScan text_input)))
  ∧ (∀ msg,
      generate_content env (attempts w + k) = Threw (BlockedPromptException msg) →
      scan_text_input env text_input w
      = (Ret (false, "Your request was blocked by safety filters. Please try a different query."),
         advance (S k) w, replicate (S k) (EvCompletion SafetyScan text_input)))
  ∧ (∀ e,
      generate_content env (attempts w + k) = Responded (Raise e) →
      ∃ msg,
        scan_text_input env text_input w
        = (Ret (false, msg),
           advance (S k) w, replicate (S k) (EvCompletion SafetyScan text_input))).
Proof.
  intros H1 Hk Hfail. rewrite (run_scan_text_stage2 _ _ H1), run_generate_text.
  rewrite (call_after_failures env SafetyScan text_input k w Hk Hfail).
  repeat split.
  - by intros answer ->.
  - by intros msg ->.
  - intros e ->. unfold outcome, final, events. cbn. eauto.
Qed.

(** X6: for a text that passes Stage 1, three failing attempts give the
    unsafe verdict with the internal-error message, after exactly three
    attempts. *)
Theorem X6_scan_text_exhaustion (text_input : string) (w : world) :
  rule_based text_input = None →
  failing env (attempts w) 3 →
  scan_text_input env text_input w
  = (Ret (false, "An internal error occurred during safety check. Please try again."),
     advance 3 w, replicate 3 (EvCompletion SafetyScan text_input)).
Proof.
  intros H1 Hfail. rewrite (run_scan_text_stage2 _ _ H1), run_generate_text.
  by rewrite (call_exhausted env SafetyScan text_input w Hfail).
Qed.

Lemma run_scan_image (data : list Byte.byte) (user_prompt : string) (w : world) :
  let vision_prompt :=
    if truthy user_prompt
    then "Is this image safe? Describe any unsafe content if present."
         +:+ " Also consider: " +:+ user_prompt
    else "Is this image safe? Describe any unsafe content if present." in
  scan_image_input env data user_prompt w
  = (Ret (stage2_verdict_of "Image input is safe."
            "The image you provided was blocked by safety filters. Please try a different image."
            "An internal error occurred during image safety check. Please try again."
            (outcome (generate_text env SafetyScan vision_prompt w))),
     final (generate_text env SafetyScan vision_prompt w),
     events (generate_text env SafetyScan vision_prompt w)).
Proof. unfold scan_image_input. apply run_stage2. Qed.

(** X7: with an accepted upload the guardrail goes straight to the vision
    scan: the accompanying text is never matched against the block list, it
    is only added to the prompt, and when the first attempt answers the
    verdict is safe whatever that text is. *)
Theorem X7_image_skips_stage1 (text : string) (file : option (string * list Byte.byte))
    (filename : string) (data : list Byte.byte) (answer : string) (w : world) :
  Main.accepted_upload file = Some (filename, data) →
  generate_content env (attempts w) = Responded (Ret answer) →
  ∃ vision_prompt,
    Main.guardrail_check env text file w
    = (Ret (Some (true, "Image input is safe.")),
       advance 1 w, [EvCompletion SafetyScan vision_prompt])
    ∧ (truthy text = true →
       vision_prompt = "Is this image safe? Describe any unsafe content if present."
                       +:+ " Also consider: " +:+ text).
Proof.
  intros Hf Hgc. unfold Main.guardrail_check. rewrite Hf, run_bind, run_scan_image.
  eexists. split.
  - rewrite run_generate_text.
    rewrite (call_after_failures env SafetyScan _ 0 w) by (try lia; intros i Hi; lia).
    rewrite Nat.add_0_r, Hgc. reflexivity.
  - by intros ->.
Qed.
End GuardrailAttempts.

Lemma X4_stage1_blocks_witness :
  GuardrailAgent.scan_text_input env_timeout "Please FORMAT Hard Drive C now" world0
  = (Ret (false, "Your request contains content that violates our safety guidelines. Please rephrase your query."),
     world0, []).
Proof.
  apply (X4_stage1_blocks env_timeout _ "format hard drive"); [simpl; tauto | reflexivity].
Defined.

Lemma X5_scan_text_decisive_attempt_witness :
  GuardrailAgent.scan_text_input (env_flaky 2 "ok") "hello" world0
  = (Ret (true, "Text input is safe."),
     advance 3 world0, replicate 3 (EvCompletion SafetyScan "hello")).
Proof.
  refine (proj1 (X5_scan_text_decisive_attempt (env_flaky 2 "ok") "hello" 2 world0 _ _ _)
            "ok" _); [reflexivity | lia | | reflexivity].
  intros i Hi. exists (Exception "Deadline exceeded").
  destruct i as [|[|i]]; [done | done | lia].
Defined.

Lemma X6_scan_text_exhaustion_witness :
  GuardrailAgent.scan_text_input env_timeout "hello" world0
  = (Ret (false, "An internal error occurred during safety check. Please try again."),
     advance 3 world0, replicate 3 (EvCompletion SafetyScan "hello")).
Proof.
  apply (X6_scan_text_exhaustion env_timeout "hello" world0); [reflexivity |].
  intros i Hi. by exists (Exception "Deadline exceeded").
Defined.

Lemma X7_image_skips_stage1_witness :
  ∃ vision_prompt,
    Main.guardrail_check (env_answer "ok") "format hard drive"
      (Some ("holiday.PNG", [])) world0
    = (Ret (Some (true, "Image input is safe.")),
       advance 1 world0, [EvCompletion SafetyScan vision_prompt])
    ∧ (PyStr.truthy "format hard drive" = true →
       vision_prompt = "Is this image safe? Describe any unsafe content if present."
                       +:+ " Also consider: " +:+ "format hard drive").
Proof.
  apply (X7_image_skips_stage1 (env_answer "ok") "format hard drive"
           (Some ("holiday.PNG", [])) "holiday.PNG" [] "ok" world0); reflexivity.
Defined.

(** ** The action policy, beyond web searches *)

Section ActionPolicyMore.
Import PyStr PyStrFacts ActionAgent.


Lemma validate_action_raises (ad : action_data) (e : exn) :
  validate_action ad = Raise e
  ↔ e = AttributeError "'NoneType' object has no attribute 'lower'"
    ∧ ad !! "action" = Some "web_search"
    ∧ py_or (py_or (ad !! "query") (ad !! "data")) (ad !! "details") = None.
Proof.
  unfold validate_action, closed_world.
  destruct (py_eq (ad !! "action") "web_search") eqn:Ew.
  - apply py_eq_true in Ew. rewrite Ew.
    destruct (py_or (py_or (ad !! "query") (ad !! "data")) (ad !! "details"))
      as [d|]; cbn [details_any].
    + repeat case_match; split; try discriminate; intros (_ & _ & Hn); discriminate Hn.
    + split; [intros [= <-]; done | by intros (-> & _)].
  - assert (ad !! "action" ≠ Some "web_search") as Hne.
    { intros H. by rewrite H in Ew. }
    repeat case_match; split; try discriminate; by intros (_ & ? & _).
Qed.


Lemma determine_action_shapes (summary : string) (ad : action_data) :
  determine_action summary = Ret ad →
  (∃ query, ad = {[ "action" := "web_search"; "query" := query ]}
            ∧ contains marker (lower summary) = true)
  ∨ (ad = {[ "action" := "save_data"; "data" := summary ]}
     ∧ contains "save this information" (lower summary) = true)
  ∨ (ad = {[ "action" := "schedule_meeting"; "details" := summary ]}
     ∧ contains "schedule" (lower summary) = true
     ∧ contains "meeting" (lower summary) = true)
  ∨ ad = {[ "action" := "none" ]}.
Proof.
  unfold determine_action. intros H.
  destruct (contains marker (lower summary)) eqn:Em.
  - destruct (split1 marker (lower summary)) as [[before after]|]; [| done].
    injection H as <-. left. eauto.
  - destruct (contains "save this information" (lower summary)) eqn:Es.
    + injection H as <-. right. by left.
    + destruct (contains "schedule" (lower summary)) eqn:E1;
        destruct (contains "meeting" (lower summary)) eqn:E2;
        injection H as <-; auto 10.
Qed.

(** X9: for the request derived from any summary, the type is one of the
    four known ones; validation raises exactly when the request is the web
    search with the empty payload; a [save_data] request is rejected
    exactly when the lower-cased summary holds a sensitive-data phrase and
    a [schedule_meeting] request exactly when it holds an illegal-activity
    phrase. *)
Theorem X9_derived_request_validation (summary : string) (ad : action_data) :
  determine_action summary = Ret ad →
  unknown_type (ad !! "action") = false
  ∧ ((∃ e, validate_action ad = Raise e)
     ↔ ad = {[ "action" := "web_search"; "query" := "" ]})
  ∧ (ad !! "action" = Some "save_data" →
     validate_action ad
     = if any_in sensitive_data (lower summary)
       then Ret (false, "Cannot save highly sensitive personal information.")
       else Ret (true, "Action is valid."))
  ∧ (ad !! "action" = Some "schedule_meeting" →
     validate_action ad
     = if any_in illegal_meeting (lower summary)
       then Ret (false, "Cannot schedule meetings related to illegal activities.")
       else Ret (true, "Action is valid.")).
Proof.
  intros [(query & -> & _) | [(-> & Hs) | [(-> & Hs & _) | -> ]]]%determine_action_shapes.
  - split; [done |]. split; [| split; discriminate].
    split.
    + intros [e (_ & _ & Hd)%validate_action_raises].
      destruct query; [done | discriminate].
    + intros Heq.
      assert (query = "") as ->.
      { apply (f_equal (λ m : action_data, m !! "query")) in Heq.
        by injection Heq. }
      eexists. reflexivity.
  - assert (truthy summary = true) as Ht.
    { destruct summary; [by vm_compute in Hs | done]. }
    split; [done |]. split; [| split; [| discriminate]].
    + split; [intros [e (_ & Hty & _)%validate_action_raises]; discriminate Hty |].
      intros Heq. apply (f_equal (λ m : action_data, m !! "action")) in Heq.
      discriminate.
    + intros _. unfold validate_action.
      change ({[ "action" := "save_data"; "data" := summary ]} !! "action")
        with (Some "save_data").
      change ({[ "action" := "save_data"; "data" := summary ]} !! "query")
        with (@None string).
      change ({[ "action" := "save_data"; "data" := summary ]} !! "data")
        with (Some summary).
      change ({[ "action" := "save_data"; "data" := summary ]} !! "details")
        with (@None string).
      cbn [py_or]. rewrite Ht.
      change (py_eq (Some "save_data") "web_search") with false.
      change (py_eq (Some "save_data") "save_data") with true.
      cbv iota. unfold details_any. rewrite Ht. cbn [andb].
      by destruct (any_in sensitive_data (lower summary)).
  - assert (truthy summary = true) as Ht.
    { destruct summary; [by vm_compute in Hs | done]. }
    split; [done |]. split; [| split; [discriminate |]].
    + split; [intros [e (_ & Hty & _)%validate_action_raises]; discriminate Hty |].
      intros Heq. apply (f_equal (λ m : action_data, m !! "action")) in Heq.
      discriminate.
    + intros _. unfold validate_action.
      change ({[ "action" := "schedule_meeting"; "details" := summary ]} !! "action")
        with (Some "schedule_meeting").
      change ({[ "action" := "schedule_meeting"; "details" := summary ]} !! "query")
        with (@None string).
      change ({[ "action" := "schedule_meeting"; "details" := summary ]} !! "data")
        with (@None string).
      change ({[ "action" := "schedule_meeting"; "details" := summary ]} !! "details")
        with (Some summary).
      cbn [py_or].
      change (py_eq (Some "schedule_meeting") "web_search") with false.
      change (py_eq (Some "schedule_meeting") "save_data") with false.
      change (py_eq (Some "schedule_meeting") "schedule_meeting") with true.
      cbv iota. unfold details_any. rewrite Ht. cbn [andb].
      by destruct (any_in illegal_meeting (lower summary)).
  - split; [done |]. split; [| split; discriminate].
    split; [intros [e (_ & Hty & _)%validate_action_raises]; discriminate Hty |].
    intros Heq. apply (f_equal (λ m : action_data, m !! "action")) in Heq.
    discriminate.
Qed.
End ActionPolicyMore.

Section Execution.
Import PyStr PyStrFacts ActionAgent.

(** X10: on the request derived from any summary, [execute_action] returns
    without raising and without changing the world, and prints one line,
    or none for type ['none']. *)
Theorem X10_derived_request_executes (summary : string) (ad : action_data) (w : world) :
  determine_action summary = Ret ad →
  ∃ prints,
    Agents.execute_action ad w = (Ret tt, w, EvExecute ad :: prints)
    ∧ Forall is_print prints
    ∧ length prints = (if py_eq (ad !! "action") "none" then 0 else 1)%nat.
Proof.
  intros [(query & -> & _) | [(-> & _) | [(-> & _) | -> ]]]%determine_action_shapes;
    eexists; (split; [reflexivity |]); split; try reflexivity; repeat constructor.
Qed.

(** X11: a [save_data] or [schedule_meeting] request without ['query'],
    ['data'] and ['details'] gets the valid verdict from [validate_action],
    and [execute_action] raises [TypeError] on it (it slices [None]). *)
Theorem X11_valid_request_can_fail_to_execute (ad : action_data) (w : world) :
  ad !! "action" = Some "save_data" ∨ ad !! "action" = Some "schedule_meeting" →
  ad !! "query" = None → ad !! "data" = None → ad !! "details" = None →
  validate_action ad = Ret (true, "Action is valid.")
  ∧ Agents.execute_action ad w
    = (Raise (TypeError "'NoneType' object is not subscriptable"), w, [EvExecute ad]).
Proof.
  intros [Ha | Ha] Hq Hd Ht.
  - split.
    + unfold validate_action. by rewrite Ha, Hq, Hd, Ht.
    + unfold Agents.execute_action. rewrite run_bind. unfold emit.
      cbv beta iota. rewrite Ha, Hd. reflexivity.
  - split.
    + unfold validate_action. by rewrite Ha, Hq, Hd, Ht.
    + unfold Agents.execute_action. rewrite run_bind. unfold emit.
      cbv beta iota. rewrite Ha, Ht. reflexivity.
Qed.
End Execution.

Lemma X10_derived_request_executes_witness :
  ∃ prints,
    Agents.execute_action meeting_request world0
    = (Ret tt, world0, EvExecute meeting_request :: prints)
    ∧ Forall is_print prints
    ∧ length prints = (if py_eq (meeting_request !! "action") "none" then 0 else 1)%nat.
Proof.
  apply (X10_derived_request_executes "Let's schedule a meeting for Tuesday").
  reflexivity.
Defined.

Lemma X11_valid_request_can_fail_to_execute_witness :
  ActionAgent.validate_action bare_save_request = Ret (true, "Action is valid.")
  ∧ Agents.execute_action bare_save_request world0
    = (Raise (TypeError "'NoneType' object is not subscriptable"), world0,
       [EvExecute bare_save_request]).
Proof.
  apply (X11_valid_request_can_fail_to_execute bare_save_request world0);
    [by left | reflexivity | reflexivity | reflexivity].
Defined.

(** ** File names *)

Section AllowedFile.
Import PyStr PyStrFacts Main.

Lemma rsplit1_last_none (s : string) :
  rsplit1_last "." s = None ↔ contains "." s = false.
Proof.
  induction s as [|c s IH]; [done |].
  cbn [rsplit1_last contains startswith].
  destruct (rsplit1_last "." s) as [r|].
  - split; [done |]. intros H. apply orb_false_iff in H as [_ H].
    by apply IH in H.
  - rewrite (proj1 IH eq_refl), orb_false_r.
    rewrite (Ascii.eqb_sym c). by destruct (Ascii.eqb "." c).
Qed.

Lemma rsplit1_last_app (stem ext : string) :
  contains "." ext = false →
  rsplit1_last "." (stem +:+ "." +:+ ext) = Some ext.
Proof.
  intros H%rsplit1_last_none. induction stem as [|c stem IH].
  - change ("" +:+ "." +:+ ext) with (String "." ext).
    cbn [rsplit1_last]. by rewrite H.
  - change (String c stem +:+ "." +:+ ext) with (String c (stem +:+ "." +:+ ext)).
    cbn [rsplit1_last]. by rewrite IH.
Qed.

(** X12: [allowed_file] looks at the text after the last dot only, and
    case-insensitively: a name ending in a dot-free extension is allowed
    exactly when the lower-cased extension is png, jpg, jpeg, gif or webp,
    and a name without a dot is never allowed. *)
Theorem X12_allowed_file_last_extension :
  (∀ stem ext,
      contains "." ext = false →
      allowed_file (stem +:+ "." +:+ ext) = true
      ↔ In (lower ext) ["png"; "jpg"; "jpeg"; "gif"; "webp"])
  ∧ (∀ filename, contains "." filename = false → allowed_file filename = false).
Proof.
  split.
  - intros stem ext Hext. unfold allowed_file. rewrite rsplit1_last_app by done.
    rewrite existsb_exists. split.
    + intros (x & Hin & ->%String.eqb_eq). done.
    + intros Hin. exists (lower ext). split; [done | apply String.eqb_refl].
  - intros filename H%rsplit1_last_none. unfold allowed_file. by rewrite H.
Qed.
End AllowedFile.

Lemma X12_allowed_file_last_extension_witness :
  (Main.allowed_file ("holiday.2024" +:+ "." +:+ "JPeG") = true
   ↔ In (PyStr.lower "JPeG") ["png"; "jpg"; "jpeg"; "gif"; "webp"])
  ∧ Main.allowed_file "README" = false.
Proof.
  split.
  - apply (proj1 X12_allowed_file_last_extension "holiday.2024" "JPeG"). reflexivity.
  - apply (proj2 X12_allowed_file_last_extension "README"). reflexivity.
Defined.

Example double_extension_rejected : Main.allowed_file "photo.png.exe" = false.
Proof. reflexivity. Qed.

(** ** The world of a turn follows its events *)

Section Replay.
Context {A B : Type}.

Lemma replay_app (t u : list event) (w : world) :
  replay (t ++ u) w = replay u (replay t w).
Proof. apply foldl_app. Qed.

Lemma sound_ret (a : A) : sound (ret a).
Proof. done. Qed.

Lemma sound_raise (e : exn) : sound (raise (A:=A) e).
Proof. done. Qed.

Lemma sound_lift (r : result A) : sound (lift r).
Proof. done. Qed.

Lemma sound_bind (m : M A) (k : A → M B) :
  sound m → (∀ a, sound (k a)) → sound (bind m k).
Proof.
  intros Hm Hk w. rewrite run_bind. specialize (Hm w).
  destruct (m w) as [[[a|e] w1] t1]; [| done].
  unfold final, events in *. cbn [fst snd] in *.
  rewrite replay_app, <- Hm. apply Hk.
Qed.

Lemma sound_try (m : M A) (h : exn → M A) :
  sound m → (∀ e, sound (h e)) → sound (try_except m h).
Proof.
  intros Hm Hh w. rewrite run_try. specialize (Hm w).
  destruct (m w) as [[[a|e] w1] t1]; [done |].
  unfold final, events in *. cbn [fst snd] in *.
  rewrite replay_app, <- Hm. apply Hh.
Qed.
End Replay.

Lemma sound_emit (e : event) :
  match e with EvAppend _ _ | EvCompletion _ _ => False | _ => True end →
  sound (emit e).
Proof. by destruct e. Qed.

Lemma sound_add_message (role content : string) : sound (add_message role content).
Proof.
  intros w. unfold add_message, final, events, replay.
  destruct (ContextManager.add_message (store w) role (JStr content)) as [s f] eqn:E.
  cbn [fst snd foldl replay_event]. by rewrite E.
Qed.

Lemma sound_get_full_history : sound get_full_history.
Proof. done. Qed.

Lemma sound_get_context_for_llm : sound get_context_for_llm.
Proof. done. Qed.

Lemma sound_model_generate_content (env : Env) (why : purpose) (prompt : string) :
  sound (model_generate_content env why prompt).
Proof. intros w. by rewrite run_model_generate_content. Qed.

(** Walks through a computation built from binds, handlers, branches and
    the primitives above. *)
Ltac sound_walk :=
  repeat first
    [ apply sound_ret | apply sound_raise | apply sound_lift
    | apply sound_add_message | apply sound_model_generate_content
    | apply sound_get_full_history | apply sound_get_context_for_llm
    | apply sound_emit; exact I
    | match goal with H : _ |- _ => apply H end
    | progress intros
    | apply sound_bind
    | apply sound_try
    | match goal with
      | |- sound (if ?b then _ else _) => destruct b
      | |- sound (match ?x with _ => _ end) => destruct x
      end ].

Section SoundTurn.
Variable env : Env.

Lemma sound_retry_loop (why : purpose) (prompt : string) (left : nat) :
  sound (retry_loop env why prompt left).
Proof. induction left as [|left IH]; cbn [retry_loop]; sound_walk. Qed.

Lemma sound_generate_text (why : purpose) (prompt : string) :
  sound (generate_text env why prompt).
Proof.
  unfold generate_text, _call_gemini_model.
  apply sound_bind; [apply sound_retry_loop | sound_walk].
Qed.

Lemma sound_scan_text_input (text : string) :
  sound (GuardrailAgent.scan_text_input env text).
Proof.
  pose proof sound_generate_text.
  unfold GuardrailAgent.scan_text_input, GuardrailAgent.stage2_handler. sound_walk.
Qed.

Lemma sound_scan_image_input (data : list Byte.byte) (prompt : string) :
  sound (GuardrailAgent.scan_image_input env data prompt).
Proof.
  pose proof sound_generate_text.
  unfold GuardrailAgent.scan_image_input, GuardrailAgent.stage2_handler,
    generate_vision_response.
  apply sound_try; [| sound_walk].
  apply sound_bind; [apply sound_generate_text | sound_walk].
Qed.

Lemma sound_guardrail_check (text : string) (file : option (string * list Byte.byte)) :
  sound (Main.guardrail_check env text file).
Proof.
  pose proof sound_scan_text_input. pose proof sound_scan_image_input.
  unfold Main.guardrail_check. sound_walk.
Qed.

Lemma sound_blocked_turn (text : string) (file : option (string * list Byte.byte))
    (msg : string) :
  sound (Main.blocked_turn text file msg).
Proof. unfold Main.blocked_turn. sound_walk. Qed.

Lemma sound_analysing (text : string) (file : option (string * list Byte.byte)) :
  sound (Main.analysing env text file).
Proof.
  pose proof sound_generate_text.
  unfold Main.analysing, Agents.analyze_image_from_bytes, Agents.analyze_text,
    generate_vision_response.
  destruct (Main.accepted_upload file) as [[? ?]|]; [| destruct (PyStr.truthy text)].
  - apply sound_bind; [apply sound_generate_text | sound_walk].
  - sound_walk.
  - sound_walk.
Qed.

Lemma sound_action_step (summary : string) : sound (Main.action_step summary).
Proof.
  unfold Main.action_step, Main.executing, Agents.validate_action,
    Agents.execute_action, Agents.first50.
  sound_walk.
Qed.

Lemma sound_safe_turn (text : string) (file : option (string * list Byte.byte)) :
  sound (Main.safe_turn env text file).
Proof.
  pose proof sound_analysing. pose proof sound_action_step.
  pose proof sound_generate_text.
  unfold Main.safe_turn, Agents.generate_response. sound_walk.
Qed.

Lemma sound_chat (req : Main.Request) : sound (Main.chat env req).
Proof.
  pose proof sound_guardrail_check. pose proof sound_blocked_turn.
  pose proof sound_safe_turn.
  unfold Main.chat. sound_walk.
Qed.
End SoundTurn.

Section ReplayFacts.
Import ContextManager.

Lemma replay_store (tr : list event) (w : world) :
  store (replay tr w) = append_all (store w) (appended tr).
Proof.
  revert w. induction tr as [|e tr IH]; intros w; [done |].
  change (replay (e :: tr) w) with (replay tr (replay_event w e)).
  rewrite IH. by destruct e.
Qed.

Lemma replay_attempts (tr : list event) (w : world) :
  attempts (replay tr w) = (completions tr + attempts w)%nat.
Proof.
  revert w. induction tr as [|e tr IH]; intros w; [done |].
  change (replay (e :: tr) w) with (replay tr (replay_event w e)).
  rewrite IH. unfold completions. destruct e; cbn; lia.
Qed.

Lemma replay_event_synced (e : event) (w : world) :
  synced w ∨ appended [e] ≠ [] → synced (replay_event w e).
Proof.
  destruct e; intros [H|H]; try exact H; try (by destruct H); reflexivity.
Qed.

Lemma replay_synced (tr : list event) (w : world) :
  synced w ∨ appended tr ≠ [] → synced (replay tr w).
Proof.
  revert w. induction tr as [|e tr IH]; intros w H.
  - by destruct H.
  - change (replay (e :: tr) w) with (replay tr (replay_event w e)).
    apply IH.
    destruct (appended tr) as [|m ms] eqn:E; [| by right].
    left. apply replay_event_synced.
    destruct H as [H|H]; [by left | right].
    destruct e; cbn in H |- *; rewrite ?E in H; done.
Qed.

Lemma replay_quiet (tr : list event) (w : world) :
  appended tr = [] → store (replay tr w) = store w ∧ disk (replay tr w) = disk w.
Proof.
  revert w. induction tr as [|e tr IH]; intros w H; [done |].
  change (replay (e :: tr) w) with (replay tr (replay_event w e)).
  destruct e; try discriminate H;
    match goal with
    | |- context [replay tr ?w'] => by destruct (IH w' H)
    end.
Qed.

Lemma appended_app (t u : list event) : appended (t ++ u) = appended t ++ appended u.
Proof. apply omap_app. Qed.

Lemma completions_app (t u : list event) :
  completions (t ++ u) = (completions t + completions u)%nat.
Proof. unfold completions. by rewrite omap_app, length_app. Qed.

Lemma appended_no_append (tr : list event) : Forall no_append tr → appended tr = [].
Proof.
  induction 1 as [|e tr He _ IH]; [done |]. destruct e; try done.
Qed.

Lemma add_message_bounded (self : t) (role : string) (content : json) :
  1 ≤ max_history_turns self →
  (length (conversation_history (add_message self role content).1)
   ≤ Z.to_nat (max_history_turns self))%nat.
Proof.
  intros Hmax. rewrite add_message_history by done. apply last_n_length.
Qed.

Lemma append_all_bounded (self : t) (msgs : list (string * json)) :
  1 ≤ max_history_turns self →
  (length (conversation_history self) ≤ Z.to_nat (max_history_turns self))%nat
  ∨ msgs ≠ [] →
  (length (conversation_history (append_all self msgs))
   ≤ Z.to_nat (max_history_turns self))%nat.
Proof.
  intros Hmax H.
  assert (∀ ms s, 1 ≤ max_history_turns s →
    (length (conversation_history s) ≤ Z.to_nat (max_history_turns s))%nat →
    (length (conversation_history (append_all s ms))
       ≤ Z.to_nat (max_history_turns s))%nat) as Hin.
  { intros ms s Hs Hl. rewrite append_all_history by done. apply last_n_length. }
  destruct H as [H|H]; [by apply Hin |].
  destruct msgs as [|[role content] msgs]; [done |].
  change (append_all self ((role, content) :: msgs))
    with (append_all (add_message self role content).1 msgs).
  rewrite <- (add_message_max self role content).
  apply Hin; rewrite add_message_max; [done |]. by apply add_message_bounded.
Qed.
End ReplayFacts.

(** ** Budgets of a turn *)

(** Walks through a computation as [only_links] does, through handlers
    and branches too. *)
Ltac only_walk :=
  repeat first
    [ apply only_ret | apply only_raise | apply only_lift
    | apply only_get_full_history | apply only_get_context_for_llm
    | apply only_add_message; exact I
    | apply only_emit; exact I
    | apply only_retry_loop; intros; first [exact I | reflexivity]
    | match goal with H : _ |- _ => apply H end
    | progress intros
    | apply only_bind
    | apply only_try
    | match goal with
      | |- only _ (if ?b then _ else _) => destruct b
      | |- only _ (match ?x with _ => _ end) => destruct x
      end ].

Section Budget.
Context {A B : Type}.

Lemma at_most_le (n n' : nat) (m : M A) : (n ≤ n')%nat → at_most n m → at_most n' m.
Proof. intros Hn Hm w. specialize (Hm w). lia. Qed.

Lemma at_most_bind (a b : nat) (m : M A) (k : A → M B) :
  at_most a m → (∀ x, at_most b (k x)) → at_most (a + b) (bind m k).
Proof.
  intros Hm Hk w. rewrite run_bind. specialize (Hm w).
  destruct (m w) as [[[x|e] w1] t1]; unfold events in *; cbn [snd] in *; [| lia].
  rewrite completions_app. specialize (Hk x w1). unfold events in Hk. lia.
Qed.

Lemma at_most_try (a b : nat) (m : M A) (h : exn → M A) :
  at_most a m → (∀ e, at_most b (h e)) → at_most (a + b) (try_except m h).
Proof.
  intros Hm Hh w. rewrite run_try. specialize (Hm w).
  destruct (m w) as [[[x|e] w1] t1]; unfold events in *; cbn [snd] in *; [lia |].
  rewrite completions_app. specialize (Hh e w1). unfold events in Hh. lia.
Qed.

Lemma at_most_quiet (m : M A) : only no_completion m → at_most 0 m.
Proof.
  intros Hm w. specialize (Hm w). induction Hm as [|e tr He _ IH]; [done |].
  destruct e; try done.
Qed.
End Budget.

Section BudgetTurn.
Variable env : Env.

Lemma at_most_retry_loop (why : purpose) (prompt : string) (left : nat) :
  at_most left (retry_loop env why prompt left).
Proof.
  induction left as [|left IH]; intros w.
  - done.
  - rewrite run_retry_step.
    destruct (generate_content env (attempts w)) as [text|e];
      [unfold completions; cbn; lia |].
    destruct (is_blocked e); [unfold completions; cbn; lia |].
    specialize (IH (advance 1 w)). unfold events, completions in *. cbn in *. lia.
Qed.

Lemma at_most_generate_text (why : purpose) (prompt : string) :
  at_most 3 (generate_text env why prompt).
Proof.
  apply (at_most_bind 3 0); [apply at_most_retry_loop |].
  intros r. apply at_most_quiet. only_walk.
Qed.

Lemma at_most_stage2 {X} (call : M X) (ok blocked internal : string) :
  at_most 3 call →
  at_most 3 (try_except (call ;;; ret (true, ok))
               (GuardrailAgent.stage2_handler blocked internal)).
Proof.
  intros H. apply (at_most_try 3 0).
  - apply (at_most_bind 3 0); [done |]. intros. apply at_most_quiet. only_walk.
  - intros e. apply at_most_quiet. unfold GuardrailAgent.stage2_handler. only_walk.
Qed.

Lemma at_most_guardrail_check (text : string) (file : option (string * list Byte.byte)) :
  at_most 3 (Main.guardrail_check env text file).
Proof.
  unfold Main.guardrail_check.
  destruct (Main.accepted_upload file) as [[? data]|]; [| destruct (PyStr.truthy text)].
  - apply (at_most_bind 3 0); [| intros; apply at_most_quiet; only_walk].
    apply at_most_stage2, at_most_generate_text.
  - apply (at_most_bind 3 0); [| intros; apply at_most_quiet; only_walk].
    unfold GuardrailAgent.scan_text_input.
    destruct (GuardrailAgent.rule_based text).
    + apply (at_most_le 0); [lia |]. apply at_most_quiet. only_walk.
    + apply at_most_stage2, at_most_generate_text.
  - apply (at_most_le 0); [lia |]. apply at_most_quiet. only_walk.
Qed.

Lemma quiet_blocked_turn (text : string) (file : option (string * list Byte.byte))
    (msg : string) :
  only no_completion (Main.blocked_turn text file msg).
Proof. unfold Main.blocked_turn. only_walk. Qed.

Lemma quiet_action_step (summary : string) : only no_completion (Main.action_step summary).
Proof.
  unfold Main.action_step, Main.executing, Agents.validate_action,
    Agents.execute_action, Agents.first50.
  only_walk.
Qed.

Lemma at_most_analysing (text : string) (file : option (string * list Byte.byte)) :
  at_most 3 (Main.analysing env text file).
Proof.
  unfold Main.analysing.
  destruct (Main.accepted_upload file) as [[? data]|]; [| destruct (PyStr.truthy text)].
  - apply (at_most_bind 3 0); [apply at_most_generate_text |].
    intros. apply at_most_quiet. only_walk.
  - apply (at_most_bind 3 0); [apply at_most_generate_text |].
    intros. apply at_most_quiet. only_walk.
  - apply (at_most_le 0); [lia |]. apply at_most_quiet. only_walk.
Qed.

Lemma at_most_safe_turn (text : string) (file : option (string * list Byte.byte)) :
  at_most 6 (Main.safe_turn env text file).
Proof.
  unfold Main.safe_turn. apply (at_most_try 6 0).
  - apply (at_most_bind 3 3); [apply at_most_analysing |]. intros [summary response].
    apply (at_most_bind 0 3); [apply at_most_quiet, quiet_action_step |]. intros.
    apply (at_most_bind 3 0); [apply at_most_generate_text |].
    intros. apply at_most_quiet. only_walk.
  - intros. apply at_most_quiet. only_walk.
Qed.

Lemma at_most_chat (req : Main.Request) : at_most 9 (Main.chat env req).
Proof.
  unfold Main.chat.
  apply (at_most_bind 0 9); [apply at_most_quiet; only_walk |]. intros _.
  apply (at_most_bind 3 6); [apply at_most_guardrail_check |].
  intros [[[] msg]|].
  - apply at_most_safe_turn.
  - apply (at_most_le 0); [lia |]. apply at_most_quiet, quiet_blocked_turn.
  - apply (at_most_le 0); [lia |]. apply at_most_quiet. only_walk.
Qed.

(** X13: a turn makes at most nine attempts on the completion service, and
    the service's attempt counter advances by exactly the number of
    attempts recorded in the turn's events. *)
Theorem X13_turn_attempt_budget (req : Main.Request) (w : world) :
  (completions (events (Main.chat env req w)) ≤ 9)%nat
  ∧ attempts (final (Main.chat env req w))
    = (completions (events (Main.chat env req w)) + attempts w)%nat.
Proof.
  split; [apply at_most_chat |].
  by rewrite (sound_chat env req w), replay_attempts.
Qed.

(** X14: after a turn that appended to the history, the history file holds
    exactly the stored history (and a file that was in step stays so); a
    turn that appended nothing leaves the store and the file as they were. *)
Theorem X14_turn_persists_history (req : Main.Request) (w : world) :
  (synced w ∨ appended (events (Main.chat env req w)) ≠ [] →
   synced (final (Main.chat env req w)))
  ∧ (appended (events (Main.chat env req w)) = [] →
     store (final (Main.chat env req w)) = store w
     ∧ disk (final (Main.chat env req w)) = disk w).
Proof.
  rewrite (sound_chat env req w). split.
  - apply replay_synced.
  - apply replay_quiet.
Qed.

(** X15: for [max_history_turns >= 1], a turn never changes the bound, and
    the history is within the bound after the turn when it was before or
    when the turn appended anything (an oversized loaded history is cut
    back by the first append). *)
Theorem X15_turn_keeps_history_bound (req : Main.Request) (w : world) :
  1 ≤ ContextManager.max_history_turns (store w) →
  Z.of_nat (length (ContextManager.get_full_history (store w)))
    ≤ ContextManager.max_history_turns (store w)
  ∨ appended (events (Main.chat env req w)) ≠ [] →
  ContextManager.max_history_turns (store (final (Main.chat env req w)))
    = ContextManager.max_history_turns (store w)
  ∧ Z.of_nat (length (ContextManager.get_full_history
                        (store (final (Main.chat env req w)))))
    ≤ ContextManager.max_history_turns (store w).
Proof.
  intros Hmax H. rewrite (sound_chat env req w), replay_store.
  rewrite append_all_max. split; [done |].
  unfold ContextManager.get_full_history in *.
  pose proof (append_all_bounded (store w)
                (appended (events (Main.chat env req w))) Hmax) as Hb.
  assert ((length (ContextManager.conversation_history (store w))
             ≤ Z.to_nat (ContextManager.max_history_turns (store w)))%nat
          ∨ appended (events (Main.chat env req w)) ≠ []) as H'.
  { destruct H as [H|H]; [left; lia | by right]. }
  specialize (Hb H'). lia.
Qed.
End BudgetTurn.

(** ** The outcomes of a turn *)

Section Outcomes.
Import PyStr Main.
Variable env : Env.

Lemma completion_no_append (why : purpose) (e : event) :
  is_completion_for why e → no_append e.
Proof. by destruct e. Qed.

Lemma quiet_history {A} (why : purpose) (m : M A) (w : world) :
  only (is_completion_for why) m → appended (events (m w)) = [].
Proof.
  intros H. apply appended_no_append.
  eapply Forall_impl; [apply H | apply completion_no_append].
Qed.

Lemma guardrail_check_returns (text : string) (file : option (string * list Byte.byte))
    (w : world) :
  ∃ v,
    outcome (guardrail_check env text file w) = Ret v
    ∧ appended (events (guardrail_check env text file w)) = []
    ∧ (v = None →
       accepted_upload file = None ∧ truthy text = false
       ∧ guardrail_check env text file w = (Ret None, w, []))
    ∧ (v ≠ None → accepted_upload file ≠ None ∨ truthy text = true).
Proof.
  pose proof (quiet_history SafetyScan _ w (only_guardrail_check env text file)) as Hq.
  unfold guardrail_check in *.
  destruct (accepted_upload file) as [[filename data]|].
  - rewrite run_bind, run_scan_image in *. eexists. repeat split; try done. by left.
  - destruct (truthy text) eqn:Ht.
    + rewrite run_bind in *. unfold GuardrailAgent.scan_text_input in *.
      destruct (GuardrailAgent.rule_based text).
      * eexists. repeat split; try done. by right.
      * rewrite run_stage2 in *. eexists. repeat split; try done. by right.
    + exists None. repeat split; done.
Qed.

Lemma analysing_outcomes (text : string) (file : option (string * list Byte.byte))
    (w : world) :
  accepted_upload file ≠ None ∨ truthy text = true →
  (∃ e, outcome (analysing env text file w) = Raise e
        ∧ appended (events (analysing env text file w)) = [])
  ∨ (∃ a, outcome (analysing env text file w) = Ret a
          ∧ length (appended (events (analysing env text file w))) = 2%nat).
Proof.
  intros Hin. unfold analysing.
  destruct (accepted_upload file) as [[filename data]|].
  - rewrite run_bind.
    pose proof (quiet_history ContentAnalysis
                  (Agents.analyze_image_from_bytes env data text) w) as Hq.
    destruct (Agents.analyze_image_from_bytes env data text w) as [[[a|e] w1] t1].
    + right. eexists. split; [reflexivity |].
      unfold events in *. cbn [snd] in *. rewrite appended_app, Hq; [done |].
      unfold Agents.analyze_image_from_bytes. only_walk.
    + left. exists e. split; [done |]. apply Hq.
      unfold Agents.analyze_image_from_bytes. only_walk.
  - destruct Hin as [Hin|Hin]; [done |]. rewrite Hin. rewrite run_bind.
    pose proof (quiet_history ContentAnalysis (Agents.analyze_text env text) w) as Hq.
    destruct (Agents.analyze_text env text w) as [[[a|e] w1] t1].
    + right. eexists. split; [reflexivity |].
      unfold events in *. cbn [snd] in *. rewrite appended_app, Hq; [done |].
      unfold Agents.analyze_text. only_walk.
    + left. exists e. split; [done |]. apply Hq.
      unfold Agents.analyze_text. only_walk.
Qed.

Lemma action_step_no_append (summary : string) : only no_append (action_step summary).
Proof.
  unfold action_step, executing, Agents.validate_action, Agents.execute_action,
    Agents.first50.
  only_walk.
Qed.

(** The rest of the [try] block once the analysis is in. *)
Lemma finishing_outcomes (summary response : string) (w : world) :
  let rest :=
    (action_message <- action_step summary ;;
     final_response_text <- Agents.generate_response env summary ;;
     add_message "model" final_response_text ;;;
     history <- get_full_history ;;
     ret (ChatReply (response +:+ nl +:+ nl +:+ action_message +:+ nl +:+ nl
                     +:+ "Gemini: " +:+ final_response_text) history)) in
  (∃ e, outcome (rest w) = Raise e ∧ appended (events (rest w)) = [])
  ∨ (∃ reply,
       outcome (rest w)
       = Ret (ChatReply reply (ContextManager.get_full_history (store (final (rest w)))))
       ∧ length (appended (events (rest w))) = 1%nat).
Proof.
  intros rest. unfold rest. rewrite run_bind.
  pose proof (appended_no_append _ (action_step_no_append summary w)) as Ha.
  destruct (action_step summary w) as [[[action_message|e] w1] t1];
    unfold events in Ha; cbn [snd] in Ha.
  - rewrite run_bind.
    pose proof (quiet_history ResponseGeneration
                  (Agents.generate_response env summary) w1) as Hq.
    destruct (Agents.generate_response env summary w1) as [[[text|e] w2] t2].
    + right. eexists. split; [reflexivity |].
      unfold events in *. cbn [snd] in *.
      rewrite !appended_app, Ha, Hq; [done |].
      unfold Agents.generate_response. only_walk.
    + left. exists e. split; [done |].
      unfold events in *. cbn [snd] in *. rewrite appended_app, Ha, Hq; [done |].
      unfold Agents.generate_response. only_walk.
  - left. exists e. split; [done |]. done.
Qed.

Lemma safe_turn_outcomes (text : string) (file : option (string * list Byte.byte))
    (w : world) :
  accepted_upload file ≠ None ∨ truthy text = true →
  (∃ reply,
     outcome (safe_turn env text file w)
     = Ret (ChatReply reply
              (ContextManager.get_full_history (store (final (safe_turn env text file w)))))
     ∧ length (appended (events (safe_turn env text file w))) = 3%nat)
  ∨ (∃ error,
       outcome (safe_turn env text file w) = Ret (ErrorReply 500 error)
       ∧ (length (appended (events (safe_turn env text file w))) = 0%nat
          ∨ length (appended (events (safe_turn env text file w))) = 2%nat)).
Proof.
  intros Hin. unfold safe_turn. rewrite run_try, run_bind.
  destruct (analysing_outcomes text file w Hin) as [(e & Ho & Ha) | ([summary response] & Ho & Ha)].
  - destruct (analysing env text file w) as [[r w1] t1].
    unfold outcome, events in Ho, Ha. cbn [fst snd] in Ho, Ha. subst r.
    right. exists (exn_str e). unfold outcome, events, ret. cbn [fst snd].
    split; [done |]. left. by rewrite appended_app, Ha.
  - destruct (analysing env text file w) as [[r w1] t1].
    unfold outcome, events in Ho, Ha. cbn [fst snd] in Ho, Ha. subst r.
    cbv beta iota.
    destruct (finishing_outcomes summary response w1) as [(e & Ho' & Ha') | (reply & Ho' & Ha')];
      match type of Ho' with
      | outcome (?rest w1) = _ => destruct (rest w1) as [[r w2] t2]
      end;
      unfold outcome, final, events in Ho', Ha' |- *; cbn [fst snd] in Ho', Ha' |- *;
      subst r; cbn [fst snd].
    + right. exists (exn_str e). split; [done |]. right.
      by rewrite !appended_app, Ha', !length_app, Ha.
    + left. exists reply. split; [done |].
      by rewrite appended_app, length_app, Ha, Ha'.
Qed.

(** X16: a turn never raises.  It answers with a chat reply carrying the
    final history after two appends (blocked input) or three (completed
    turn); or with the 400 error, without any event or change, exactly
    when there is neither text nor an accepted upload; or with a 500 error
    after no append or after the two analysis entries, which are not rolled
    back. *)
Theorem X16_turn_outcomes (req : Request) (w : world) :
  (∃ reply,
     outcome (chat env req w)
     = Ret (ChatReply reply
              (ContextManager.get_full_history (store (final (chat env req w)))))
     ∧ (length (appended (events (chat env req w))) = 2%nat
        ∨ length (appended (events (chat env req w))) = 3%nat))
  ∨ (chat env req w = (Ret (ErrorReply 400 "No text or image input provided."), w, [])
     ∧ accepted_upload (image_file req) = None
     ∧ truthy (strip (text_input req)) = false)
  ∨ (∃ error,
       outcome (chat env req w) = Ret (ErrorReply 500 error)
       ∧ (length (appended (events (chat env req w))) = 0%nat
          ∨ length (appended (events (chat env req w))) = 2%nat)).
Proof.
  unfold chat. rewrite run_bind. unfold get_context_for_llm. cbv beta iota.
  rewrite run_bind.
  destruct (guardrail_check_returns (strip (text_input req)) (image_file req) w)
    as (v & Ho & Ha & Hnone & Hsome).
  destruct v as [[safe msg]|].
  - pose proof (Hsome ltac:(done)) as Hin; clear Hnone Hsome.
    destruct (guardrail_check env (strip (text_input req)) (image_file req) w)
      as [[r w1] scan] eqn:Hg.
    unfold outcome, events in Ho, Ha. cbn [fst snd] in Ho, Ha. subst r.
    cbv beta iota. destruct safe; cbn [negb].
    + destruct (safe_turn_outcomes (strip (text_input req)) (image_file req) w1 Hin)
        as [(reply & Ho' & Ha') | (error & Ho' & Ha')];
        destruct (safe_turn env (strip (text_input req)) (image_file req) w1)
          as [[r w2] t2];
        unfold outcome, final, events in Ho', Ha' |- *; cbn [fst snd app] in Ho', Ha' |- *;
        subst r; rewrite appended_app, Ha.
      * left. exists reply. split; [done |]. right. done.
      * right. right. exists error. split; [done |]. done.
    + left.
      assert (∃ label,
        (truthy (strip (text_input req)) = true ∧ label = strip (text_input req))
        ∨ (truthy (strip (text_input req)) = false
           ∧ ∃ filename data, image_file req = Some (filename, data)
                              ∧ label = "[Image: " +:+ filename +:+ "]")) as [label Hl].
      { destruct (truthy (strip (text_input req))) eqn:Ht; [eauto |].
        destruct Hin as [Hin|Hin]; [| done].
        unfold accepted_upload in Hin.
        destruct (image_file req) as [[filename data]|]; [| done].
        eexists. right. eauto. }
      rewrite (run_blocked_turn _ _ msg label w1 Hl).
      unfold outcome, final, events. cbn [fst snd app store].
      eexists. split; [reflexivity |]. left. by rewrite appended_app, Ha.
  - destruct (Hnone eq_refl) as (Hacc & Ht & Hrun). clear Hnone Hsome.
    right. left. rewrite Hrun. by cbv beta iota.
Qed.
End Outcomes.

Section IgnoredUpload.
Import PyStr Main.
Variable env : Env.

(** X17: an upload that is not accepted (no file name, no dot, or an
    extension that is not allowed) has no effect on the turn: the reply,
    the final world and the events are those of the same request without
    the file. *)
Theorem X17_rejected_upload_is_ignored (req : Request) (w : world) :
  accepted_upload (image_file req) = None →
  chat env req w
  = chat env {| text_input := text_input req; image_file := None |} w.
Proof.
  intros Hacc. unfold chat. cbn [text_input image_file].
  rewrite !run_bind. unfold get_context_for_llm. cbv beta iota. rewrite !run_bind.
  assert (guardrail_check env (strip (text_input req)) (image_file req) w
          = guardrail_check env (strip (text_input req)) None w) as Hg.
  { unfold guardrail_check. by rewrite Hacc. }
  rewrite Hg.
  destruct (guardrail_check_returns env (strip (text_input req)) None w)
    as (v & Ho & _ & _ & Hsome).
  destruct (guardrail_check env (strip (text_input req)) None w) as [[r w1] scan].
  unfold outcome in Ho. cbn [fst] in Ho. subst r. cbv beta iota.
  destruct v as [[[] msg]|]; cbn [negb]; [| | done].
  - assert (safe_turn env (strip (text_input req)) (image_file req)
            = safe_turn env (strip (text_input req)) None) as ->; [| done].
    unfold safe_turn, analysing. by rewrite Hacc.
  - destruct (Hsome ltac:(done)) as [Hin|Ht]; [done |].
    assert (blocked_turn (strip (text_input req)) (image_file req) msg
            = blocked_turn (strip (text_input req)) None msg) as ->; [| done].
    unfold blocked_turn. by rewrite Ht.
Qed.
End IgnoredUpload.

Lemma X17_rejected_upload_is_ignored_witness :
  Main.chat (env_answer "ok") exe_request world0
  = Main.chat (env_answer "ok")
      {| Main.text_input := Main.text_input exe_request; Main.image_file := None |} world0.
Proof.
  apply (X17_rejected_upload_is_ignored (env_answer "ok") exe_request world0). reflexivity.
Defined.

(** ** The history store, continued *)

Section StoreMore.
Import ContextManager.

Lemma last_n_map {X Y} (f : X → Y) (n : nat) (l : list X) :
  last_n n (map f l) = map f (last_n n l).
Proof. unfold last_n. by rewrite length_map, <- fmap_drop. Qed.

Lemma context_of_entries (max : Z) (msgs : list (string * json)) :
  get_context_for_llm (mk max (entries msgs))
  = omap (λ m, match m.2 with JStr s => Some (JStr m.1, s) | _ => None end) msgs.
Proof.
  unfold get_context_for_llm. cbn [conversation_history].
  induction msgs as [|[role content] msgs IH]; [done |].
  change (entries ((role, content) :: msgs)) with (entry role content :: entries msgs).
  cbn [omap list_omap]. rewrite <- IH. unfold entry.
  change ({[ "role" := JStr role; "content" := content ]} !! "content") with (Some content).
  change ({[ "role" := JStr role; "content" := content ]} !! "role") with (Some (JStr role)).
  by destruct content.
Qed.

(** X18: for [max_history_turns >= 1] and a store that starts empty,
    [get_context_for_llm] after a sequence of appends returns the role and
    content of the retained messages whose content is a string, in order,
    and drops the others. *)
Theorem X18_context_round_trip (self : t) (msgs : list (string * json)) :
  1 ≤ max_history_turns self →
  conversation_history self = [] →
  get_context_for_llm (append_all self msgs)
  = omap (λ m, match m.2 with JStr s => Some (JStr m.1, s) | _ => None end)
      (last_n (Z.to_nat (max_history_turns self)) msgs).
Proof.
  intros Hmax Hempty.
  rewrite <- (context_of_entries (max_history_turns self)).
  unfold get_context_for_llm. cbn [conversation_history].
  rewrite append_all_history, Hempty by (rewrite ?Hempty; simpl; lia).
  change ([] ++ entries msgs) with (entries msgs).
  unfold entries. by rewrite last_n_map.
Qed.

Lemma load_well_formed (file : file_state) :
  forallb well_formed_item (_load_history file) = true.
Proof.
  destruct file as [| | |[]]; try done. cbn.
  by destruct (forallb well_formed_item items) eqn:E.
Qed.

Lemma forallb_drop {X} (P : X → bool) (n : nat) (l : list X) :
  forallb P l = true → forallb P (drop n l) = true.
Proof.
  revert n. induction l as [|x l IH]; intros [|n] H; try done.
  cbn in *. apply andb_true_iff in H as [_ H]. by apply IH.
Qed.

Lemma add_message_well_formed (self : t) (role : string) (content : json) :
  forallb well_formed_item (conversation_history self) = true →
  forallb well_formed_item (conversation_history (add_message self role content).1) = true.
Proof.
  intros H. unfold add_message. cbn [fst conversation_history].
  assert (forallb well_formed_item (conversation_history self ++ [entry role content])
          = true) as Hh.
  { rewrite forallb_app, H. reflexivity. }
  destruct (_ <? _); [| done]. unfold slice_from.
  destruct (_ <? _); by apply forallb_drop.
Qed.

Lemma append_all_well_formed (self : t) (msgs : list (string * json)) :
  forallb well_formed_item (conversation_history self) = true →
  forallb well_formed_item (conversation_history (append_all self msgs)) = true.
Proof.
  revert self. induction msgs as [|[role content] msgs IH]; intros self H; [done |].
  change (append_all self ((role, content) :: msgs))
    with (append_all (add_message self role content).1 msgs).
  by apply IH, add_message_well_formed.
Qed.

(** X19: a store built by loading any file and appending any messages
    writes a file from which a new [ContextManager], with any bound, loads
    exactly the same history: what [add_message] stores always passes the
    format check of [_load_history]. *)
Theorem X19_restart_recovers_history (file : file_state) (max max' : Z)
    (msgs : list (string * json)) :
  get_full_history (init (_save_history (append_all (init file max) msgs)) max')
  = get_full_history (append_all (init file max) msgs).
Proof.
  unfold get_full_history, init, _save_history, _load_history.
  cbn [conversation_history].
  rewrite append_all_well_formed; [done |]. apply load_well_formed.
Qed.

(** X20: [clear_history] empties the store and writes a file that loads as
    the empty history; clearing twice is the same as clearing once; and
    for [max_history_turns >= 1] later appends behave as on a new store,
    whatever the store held before. *)
Theorem X20_clear_history_resets (self : t) (msgs : list (string * json)) :
  1 ≤ max_history_turns self →
  get_full_history (clear_history self).1 = []
  ∧ _load_history (clear_history self).2 = []
  ∧ clear_history (clear_history self).1 = clear_history self
  ∧ get_full_history (append_all (clear_history self).1 msgs)
    = last_n (Z.to_nat (max_history_turns self)) (entries msgs).
Proof.
  intros Hmax. repeat split.
  unfold get_full_history. rewrite append_all_history; [done | done |].
  cbn. lia.
Qed.
End StoreMore.

(** ** The properties above at concrete inputs *)

Lemma X2_first_decisive_attempt_witness :
  _call_gemini_model (env_flaky 1 "ok") ContentAnalysis "hi" world0
  = (Ret (Ret "ok"), advance 2 world0, replicate 2 (EvCompletion ContentAnalysis "hi")).
Proof.
  refine (proj1 (X2_first_decisive_attempt (env_flaky 1 "ok") ContentAnalysis "hi" 1
                   world0 _ _) (Ret "ok") _); [lia | | reflexivity].
  intros i Hi. exists (Exception "Deadline exceeded").
  destruct i as [|i]; [done | lia].
Defined.

Lemma X3_retry_exhaustion_witness :
  _call_gemini_model env_timeout ContentAnalysis "hi" world0
  = (Raise (Exception "Failed to call Gemini API after 3 attempts."),
     advance 3 world0, replicate 3 (EvCompletion ContentAnalysis "hi")).
Proof.
  apply (X3_retry_exhaustion env_timeout ContentAnalysis "hi" world0).
  intros i Hi. by exists (Exception "Deadline exceeded").
Defined.


Lemma X9_derived_request_validation_witness :
  ActionAgent.unknown_type (empty_search !! "action") = false
  ∧ ((∃ e, ActionAgent.validate_action empty_search = Raise e)
     ↔ empty_search = {[ "action" := "web_search"; "query" := "" ]})
  ∧ (empty_search !! "action" = Some "save_data" →
     ActionAgent.validate_action empty_search
     = if PyStr.any_in ActionAgent.sensitive_data (PyStr.lower "Then search the web for  ")
       then Ret (false, "Cannot save highly sensitive personal information.")
       else Ret (true, "Action is valid."))
  ∧ (empty_search !! "action" = Some "schedule_meeting" →
     ActionAgent.validate_action empty_search
     = if PyStr.any_in ActionAgent.illegal_meeting (PyStr.lower "Then search the web for  ")
       then Ret (false, "Cannot schedule meetings related to illegal activities.")
       else Ret (true, "Action is valid.")).
Proof.
  apply (X9_derived_request_validation "Then search the web for  " empty_search).
  reflexivity.
Defined.

Lemma X14_turn_persists_history_witness :
  synced (final (Main.chat (env_answer "ok") search_request world0)).
Proof.
  apply (proj1 (X14_turn_persists_history (env_answer "ok") search_request world0)).
  right. intros H. vm_compute in H. discriminate H.
Defined.

Lemma X15_turn_keeps_history_bound_witness :
  ContextManager.max_history_turns
    (store (final (Main.chat (env_answer "ok") search_request world0)))
  = ContextManager.max_history_turns (store world0)
  ∧ Z.of_nat (length (ContextManager.get_full_history
                        (store (final (Main.chat (env_answer "ok") search_request world0)))))
    ≤ ContextManager.max_history_turns (store world0).
Proof.
  apply (X15_turn_keeps_history_bound (env_answer "ok") search_request world0);
    [vm_compute; discriminate | left; vm_compute; discriminate].
Defined.

Lemma X18_context_round_trip_witness :
  ContextManager.get_context_for_llm
    (append_all (ContextManager.init FileAbsent 2) three_messages)
  = omap (λ m, match m.2 with JStr s => Some (JStr m.1, s) | _ => None end)
      (last_n (Z.to_nat (ContextManager.max_history_turns (ContextManager.init FileAbsent 2)))
         three_messages).
Proof.
  apply (X18_context_round_trip (ContextManager.init FileAbsent 2) three_messages);
    [vm_compute; discriminate | reflexivity].
Defined.

Lemma X20_clear_history_resets_witness :
  ContextManager.get_full_history
    (ContextManager.clear_history (ContextManager.init (FileJSON (JArr persisted3)) 2)).1 = []
  ∧ ContextManager._load_history
      (ContextManager.clear_history (ContextManager.init (FileJSON (JArr persisted3)) 2)).2 = []
  ∧ ContextManager.clear_history
      (ContextManager.clear_history (ContextManager.init (FileJSON (JArr persisted3)) 2)).1
    = ContextManager.clear_history (ContextManager.init (FileJSON (JArr persisted3)) 2)
  ∧ ContextManager.get_full_history
      (append_all
         (ContextManager.clear_history (ContextManager.init (FileJSON (JArr persisted3)) 2)).1
         three_messages)
    = last_n (Z.to_nat (ContextManager.max_history_turns
                          (ContextManager.init (FileJSON (JArr persisted3)) 2)))
        (entries three_messages).
Proof.
  apply (X20_clear_history_resets (ContextManager.init (FileJSON (JArr persisted3)) 2)
           three_messages).
  vm_compute. discriminate.
Defined.

Section RestartAfterTurn.
Variable env : Env.

(** X21: after a turn that appended to a well-formed history, loading the
    history file gives exactly the history the store holds (the one a
    chat reply carries). *)
Theorem X21_turn_survives_restart (req : Main.Request) (w : world) :
  forallb ContextManager.well_formed_item
    (ContextManager.conversation_history (store w)) = true →
  appended (events (Main.chat env req w)) ≠ [] →
  ContextManager._load_history (disk (final (Main.chat env req w)))
  = ContextManager.get_full_history (store (final (Main.chat env req w))).
Proof.
  intros Hwf Happ.
  pose proof (replay_synced (events (Main.chat env req w)) w (or_intror Happ)) as Hs.
  rewrite <- (sound_chat env req w) in Hs. rewrite Hs.
  unfold ContextManager._load_history, ContextManager._save_history,
    ContextManager.get_full_history.
  rewrite (sound_chat env req w), replay_store.
  by rewrite append_all_well_formed.
Qed.
End RestartAfterTurn.

Lemma X21_turn_survives_restart_witness :
  ContextManager._load_history
    (disk (final (Main.chat (env_answer "ok") search_request world0)))
  = ContextManager.get_full_history
      (store (final (Main.chat (env_answer "ok") search_request world0))).
Proof.
  apply (X21_turn_survives_restart (env_answer "ok") search_request world0);
    [reflexivity |].
  intros H. vm_compute in H. discriminate H.
Defined.
